(** * OnionBalance status socket ([onionbalance/status.py])

    A shallow embedding of the status reporter: the report renderer and the
    connection handler of [StatusSocketHandler], and the life cycle of the
    Unix domain socket server in [StatusSocket].

    Python exceptions are values of [exn]; code that may raise returns a
    [result].  Code that also changes objects (the client socket, the logger,
    the attributes of [self], the file system) is a function from a state
    to a new state and a [result].  What the operating system and the C
    library decide (the outcome of [unlink] and [bind], the local time zone)
    is a parameter of the model. *)

From Stdlib Require Import Ascii List ZArith Lia Bool DecimalString.
From Stdlib Require String.
From Stdlib.Strings Require Import Byte.
From stdpp Require Import gmap strings.
Import ListNotations.

(** ** Exceptions *)

(** The exception classes the module can meet.  [SystemExit] and
    [KeyboardInterrupt] derive from [BaseException] only; every other class
    derives from [Exception]. *)
Inductive exn : Type :=
| AttributeError (attribute : string)
| IndexError
| KeyError (key : string)
| NameError (name : string)
| OSError (errno : Z)
| OverflowError
| TypeError
| ValueError
| SystemExit
| KeyboardInterrupt.

(** [errno.ENOENT] *)
Definition ENOENT : Z := 2.
(** [errno.EACCES] *)
Definition EACCES : Z := 13.
(** [errno.EPIPE] *)
Definition EPIPE : Z := 32.
(** [errno.EOVERFLOW] *)
Definition EOVERFLOW : Z := 75.
(** [errno.EADDRINUSE] *)
Definition EADDRINUSE : Z := 98.

(** [os.strerror(errno)] for the error numbers above. *)
Definition strerror (errno : Z) : string :=
  if (errno =? ENOENT)%Z then "No such file or directory"
  else if (errno =? EACCES)%Z then "Permission denied"
  else if (errno =? EPIPE)%Z then "Broken pipe"
  else if (errno =? EOVERFLOW)%Z then "Value too large for defined data type"
  else if (errno =? EADDRINUSE)%Z then "Address already in use"
  else "Unknown error " +:+ NilZero.string_of_int (Z.to_int errno).

(** [isinstance(e, Exception)] *)
Definition is_Exception (e : exn) : bool :=
  match e with
  | SystemExit | KeyboardInterrupt => false
  | _ => true
  end.

(** [isinstance(e, OSError)]; [socket.error] is the same class. *)
Definition is_OSError (e : exn) : bool :=
  match e with OSError _ => true | _ => false end.

(** [isinstance(e, AttributeError)] *)
Definition is_AttributeError (e : exn) : bool :=
  match e with AttributeError _ => true | _ => false end.

(** [str(e)], as the warning of [handle] prints it: the wording of
    CPython 3.11.  An [OSError] is one raised with its error number and the
    text of the error, and no file name, as [sendall] and
    [datetime.fromtimestamp] raise it.  For [ValueError] the year that is
    out of range is left out. *)
Definition exn_str (e : exn) : string :=
  match e with
  | AttributeError a => "'StatusSocket' object has no attribute '" +:+ a +:+ "'"
  | IndexError => "list index out of range"
  | KeyError k => "'" +:+ k +:+ "'"
  | NameError n => "name '" +:+ n +:+ "' is not defined"
  | OSError errno =>
      "[Errno " +:+ NilZero.string_of_int (Z.to_int errno) +:+ "] "
      +:+ strerror errno
  | OverflowError => "timestamp out of range for platform time_t"
  | TypeError => "'NoneType' object cannot be interpreted as an integer"
  | ValueError => "year is out of range"
  | SystemExit => ""
  | KeyboardInterrupt => ""
  end.

Inductive result (A : Type) : Type :=
| Ok (value : A)
| Raise (e : exn).
Arguments Ok {A} value.
Arguments Raise {A} e.

#[global] Instance result_ret : MRet result := fun A x => Ok x.
#[global] Instance result_bind : MBind result := fun A B f r =>
  match r with
  | Ok x => f x
  | Raise e => Raise e
  end.

(** A [for] loop whose body may raise: the loop stops at the first raise. *)
Fixpoint for_each {A S : Type} (body : S -> A -> result S) (acc : S) (l : list A)
  : result S :=
  match l with
  | [] => Ok acc
  | x :: rest => acc' ← body acc x; for_each body acc' rest
  end.

(** ** Dates and [strftime] *)

(** A naive [datetime.datetime]: its wall-clock fields, no time zone. *)
Record datetime : Type := {
  year : Z;
  month : Z;
  day : Z;
  hour : Z;
  minute : Z;
  second : Z
}.

(** The ranges the [datetime] constructor enforces. *)
Definition valid_datetime (dt : datetime) : bool :=
  ((1 <=? year dt) && (year dt <=? 9999) &&
   (1 <=? month dt) && (month dt <=? 12) &&
   (1 <=? day dt) && (day dt <=? 31) &&
   (0 <=? hour dt) && (hour dt <? 24) &&
   (0 <=? minute dt) && (minute dt <? 60) &&
   (0 <=? second dt) && (second dt <? 60))%Z.

(** [str(n)] for an integer. *)
Definition decimal (n : Z) : string := NilZero.string_of_int (Z.to_int n).

Fixpoint zeros (n : nat) : string :=
  match n with
  | O => ""
  | S n' => String "0" (zeros n')
  end.

(** [s.zfill(width)] *)
Definition zfill (width : nat) (s : string) : string :=
  zeros (width - String.length s) +:+ s.

(** One conversion directive of [strftime], as the C library of the
    platform (glibc) prints it.  Only the directives the module uses are
    interpreted; any other one is copied.  [%Y] is the year in decimal with
    no padding: a year below 1000 has fewer than four digits. *)
Definition directive (dt : datetime) (c : ascii) : string :=
  match c with
  | "Y"%char => decimal (year dt)
  | "m"%char => zfill 2 (decimal (month dt))
  | "d"%char => zfill 2 (decimal (day dt))
  | "H"%char => zfill 2 (decimal (hour dt))
  | "M"%char => zfill 2 (decimal (minute dt))
  | "S"%char => zfill 2 (decimal (second dt))
  | "%"%char => "%"
  | _ => String "%" (String c "")
  end.

(** [dt.strftime(format)] *)
Fixpoint strftime (dt : datetime) (format : string) : string :=
  match format with
  | "" => ""
  | String "%" (String c rest) => directive dt c +:+ strftime dt rest
  | String c rest => String c (strftime dt rest)
  end.

Definition is_digit (c : ascii) : bool :=
  let n := nat_of_ascii c in ((48 <=? n) && (n <=? 57))%nat.

Definition two_digits (s : string) : bool :=
  match s with
  | String a (String b "") => is_digit a && is_digit b
  | _ => false
  end.

Definition four_digits (s : string) : bool :=
  match s with
  | String a (String b (String c (String d ""))) =>
      is_digit a && is_digit b && is_digit c && is_digit d
  | _ => false
  end.

(** Recogniser of the shape [YYYY-MM-DD HH:MM:SS]. *)
Definition is_date_time (s : string) : bool :=
  match String.list_ascii_of_string s with
  | [y1; y2; y3; y4; s1; m1; m2; s2; d1; d2; s3; h1; h2; s4; n1; n2; s5; c1; c2] =>
      forallb is_digit [y1; y2; y3; y4; m1; m2; d1; d2; h1; h2; n1; n2; c1; c2]
      && Ascii.eqb s1 "-" && Ascii.eqb s2 "-" && Ascii.eqb s3 " "
      && Ascii.eqb s4 ":" && Ascii.eqb s5 ":"
  | _ => false
  end.

(** Recogniser of the shape [HH:MM:SS]. *)
Definition is_time_of_day (s : string) : bool :=
  match String.list_ascii_of_string s with
  | [h1; h2; s1; n1; n2; s2; c1; c2] =>
      forallb is_digit [h1; h2; n1; n2; c1; c2]
      && Ascii.eqb s1 ":" && Ascii.eqb s2 ":"
  | _ => false
  end.

(** ** The snapshot: [config.services] *)

(** An introduction point of an instance; the report only counts them. *)
Inductive introduction_point : Type :=
| IntroductionPoint (identifier : string).

(** The attributes of an instance that the report reads.  [None] stands for
    Python's [None]: no descriptor received yet, health not known, no health
    check run yet.  [last_check_time] is the epoch second the time of the
    check falls in once [datetime.fromtimestamp] has rounded it to the
    microsecond; the report prints nothing below the second. *)
Record instance : Type := {
  instance_onion_address : string;
  timestamp : option datetime;
  introduction_points : list introduction_point;
  is_healthy : option bool;
  last_check_time : option Z
}.

(** The attributes of a service that the report reads.  [health_check_conf]
    is a dictionary; the value [None] under a key is Python's [None]. *)
Record service : Type := {
  service_onion_address : string;
  uploaded : option datetime;
  health_check_conf : gmap string (option string);
  instances : list instance
}.

(** [d[key]] on a dictionary *)
Definition getitem (d : gmap string (option string)) (key : string)
  : result (option string) :=
  match d !! key with
  | Some v => Ok v
  | None => Raise (KeyError key)
  end.

(** [v != None] *)
Definition is_not_None {A : Type} (v : option A) : bool :=
  match v with Some _ => true | None => false end.

(** ** The report renderer: the body of [send_status] up to the write *)

Definition newline : string := String "010" "".

(** [response[-1] += suffix] *)
Definition append_to_last (response : list string) (suffix : string)
  : result (list string) :=
  match rev response with
  | [] => Raise IndexError
  | line :: before => Ok (rev before ++ [line +:+ suffix])
  end.

Definition time_format : string := "%Y-%m-%d %H:%M:%S".

(** What [datetime.fromtimestamp] raises for an epoch second it cannot
    convert, on a platform with a 64-bit [time_t] and glibc: [OverflowError]
    when the second does not fit [time_t]; [OSError] with [EOVERFLOW] when
    the C library's [localtime] fails, the year not fitting its [struct tm]
    (the bounds are those of UTC; a time zone moves them by its offset);
    [ValueError] otherwise, the year being outside 1 to 9999. *)
Definition conversion_failure (secs : Z) : exn :=
  if ((secs <? - 2 ^ 63) || (2 ^ 63 <=? secs))%Z then OverflowError
  else if ((secs <? -67768040609740800) || (67768036191676799 <? secs))%Z
       then OSError EOVERFLOW
       else ValueError.

Section Renderer.

(** The conversion [datetime.fromtimestamp] makes of an epoch second in
    the time zone of the process: the local wall-clock time, or nothing
    when the conversion fails. *)
Variable localtime : Z -> option datetime.

(** [datetime.fromtimestamp(t)] *)
Definition fromtimestamp (t : option Z) : result datetime :=
  match t with
  | None => Raise TypeError
  | Some secs =>
      match localtime secs with
      | Some dt => Ok dt
      | None => Raise (conversion_failure secs)
      end
  end.

(** The body of [for instance in service.instances]. *)
Definition render_instance (healthcheck : bool) (response : list string)
    (inst : instance) : result (list string) :=
  let response :=
    match timestamp inst with
    | None =>
        response ++ ["  " +:+ instance_onion_address inst +:+ ".onion [offline]"]
    | Some refreshed =>
        response ++ ["  " +:+ instance_onion_address inst +:+ ".onion "
                       +:+ strftime refreshed time_format +:+ " "
                       +:+ decimal (Z.of_nat (length (introduction_points inst)))
                       +:+ " IPs"]
    end in
  if healthcheck then
    match is_healthy inst with
    | Some true =>
        ts ← fromtimestamp (last_check_time inst);
        append_to_last response (" [up at " +:+ strftime ts "%H:%M:%S" +:+ "]")
    | Some false =>
        ts ← fromtimestamp (last_check_time inst);
        append_to_last response (" [down at " +:+ strftime ts "%H:%M:%S" +:+ "]")
    | None => Ok response
    end
  else Ok response.

(** The body of [for service in config.services]. *)
Definition render_service (response : list string) (svc : service)
    : result (list string) :=
  let service_timestamp :=
    match uploaded svc with
    | Some up => strftime up time_format
    | None => "[not uploaded]"
    end in
  let response :=
    response ++ [service_onion_address svc +:+ ".onion " +:+ service_timestamp] in
  kind ← getitem (health_check_conf svc) "type";
  let healthcheck := is_not_None kind in
  for_each (render_instance healthcheck) response (instances svc).

(** The list [response] when the loops are over and the empty line has
    been appended. *)
Definition build_response (services : list service) : result (list string) :=
  response ← for_each render_service [] services;
  Ok (response ++ [""]).

(** The argument of [sendall]: ['\n'.join(response).encode('utf-8')].
    A [string] here holds the UTF-8 bytes of the Python text. *)
Definition encode_response (response : list string) : list byte :=
  String.list_byte_of_string (String.concat newline response).

Definition render (services : list service) : result (list byte) :=
  response ← build_response services;
  Ok (encode_response response).

End Renderer.

(** ** Stateful code *)

(** A method that reads and changes a state of type [S], and returns a value
    of type [A] or raises. *)
Definition M (S A : Type) : Type := S -> S * result A.

#[global] Instance M_ret {S : Type} : MRet (M S) := fun A x st => (st, Ok x).
#[global] Instance M_bind {S : Type} : MBind (M S) := fun A B f m st =>
  match m st with
  | (st', Ok x) => f x st'
  | (st', Raise e) => (st', Raise e)
  end.

(** [raise e] *)
Definition raise {S A : Type} (e : exn) : M S A := fun st => (st, Raise e).

(** A computation that cannot touch the state. *)
Definition lift {S A : Type} (r : result A) : M S A := fun st => (st, r).

Definition gets {S A : Type} (f : S -> A) : M S A := fun st => (st, Ok (f st)).

Definition modify {S : Type} (f : S -> S) : M S unit := fun st => (f st, Ok tt).

(** [try: body / except C1: h1 / except C2: h2 ...]: the first clause whose
    class matches the exception handles it; an exception raised by a handler,
    or matched by no clause, leaves the statement. *)
Definition try_except {S A : Type} (body : M S A)
    (clauses : list ((exn -> bool) * (exn -> M S A))) : M S A :=
  fun st =>
    match body st with
    | (st', Ok x) => (st', Ok x)
    | (st', Raise e) =>
        match find (fun clause => fst clause e) clauses with
        | Some clause => snd clause e st'
        | None => (st', Raise e)
        end
    end.

(** ** Logging *)

Inductive level : Type := DEBUG | WARNING | ERROR.

(** A record the module's logger has emitted.  [exc_info] tells whether the
    traceback of the exception being handled is attached. *)
Record log_record : Type := {
  levelname : level;
  message : string;
  exc_info : bool
}.

(** ** [StatusSocketHandler] *)

Module StatusSocketHandler.

(** The client's end of an accepted connection: the bytes written to it so
    far and, when the peer is going away, how many more bytes it takes and
    the [errno] writes fail with once it is gone.  With no byte left to
    take the peer is gone. *)
Record connection : Type := {
  sent : list byte;
  fault : option (nat * Z)
}.

Definition fresh_connection : connection := {| sent := []; fault := None |}.

(** What a handler works on: the global [config.services], its own
    [self.request], and the logger. *)
Record state : Type := {
  services : list service;
  request : connection;
  log : list log_record
}.

Definition set_request (c : connection) (st : state) : state :=
  {| services := services st; request := c; log := log st |}.

(** [self.request.sendall(data)]: all of [data] is written, or the part the
    peer still takes is written and [OSError] is raised.  [sendall] calls
    [send] at least once, also for no data, so on a peer that is gone it
    raises whatever [data] is. *)
Definition sendall (data : list byte) : M state unit := fun st =>
  let conn := request st in
  match fault conn with
  | None =>
      (set_request {| sent := sent conn ++ data; fault := None |} st, Ok tt)
  | Some (room, errno) =>
      if ((room =? 0) || (room <? length data))%nat then
        (set_request {| sent := sent conn ++ take room data;
                        fault := Some (O, errno) |} st,
         Raise (OSError errno))
      else
        (set_request {| sent := sent conn ++ data;
                        fault := Some ((room - length data)%nat, errno) |} st,
         Ok tt)
  end.

(** [logger.warning(msg, exc_info=True)] *)
Definition logger_warning (msg : string) : M state unit :=
  modify (fun st =>
    {| services := services st; request := request st;
       log := log st ++ [{| levelname := WARNING; message := msg;
                            exc_info := true |}] |}).

Section Handler.

Variable localtime : Z -> option datetime.

Definition send_status : M state unit :=
  current ← gets services;
  response ← lift (build_response localtime current);
  sendall (encode_response response).

(** The [try] statement of [handle] around a body:
    [try: body / except Exception as e: logger.warning(...)]. *)
Definition warn_on_Exception (body : M state unit) : M state unit :=
  try_except body
    [ (is_Exception,
       fun e => logger_warning ("Error returning status: " +:+ exn_str e)) ].

Definition handle : M state unit := warn_on_Exception send_status.

(** The dispatch of the socket server, one accepted connection after the
    other: each gets a handler of its own, whose [self.request] it is.
    The connections are returned as the handlers left them.  A handler
    that raised would end the loop. *)
Fixpoint serve (accepted : list connection) : M state (list connection) :=
  match accepted with
  | [] => mret []
  | conn :: rest =>
      modify (set_request conn);;
      handle;;
      served ← gets request;
      others ← serve rest;
      mret (served :: others)
  end.

End Handler.

End StatusSocketHandler.

(** ** Names of the module *)

(** A name space: each bound name with the text [str] gives for its value. *)
Definition namespace : Type := gmap string string.

(** The global names of [onionbalance/status.py] once it is imported. *)
Definition module_globals : namespace :=
  list_to_map
    [ ("__name__", "onionbalance.status");
      ("__doc__", "Provide status over Unix socket");
      ("__package__", "onionbalance");
      ("__file__", "onionbalance/status.py");
      ("__builtins__", "<module 'builtins' (built-in)>");
      ("datetime", "<class 'datetime.datetime'>");
      ("os", "<module 'os'>");
      ("errno", "<module 'errno' (built-in)>");
      ("threading", "<module 'threading'>");
      ("socket", "<module 'socket'>");
      ("BaseRequestHandler", "<class 'socketserver.BaseRequestHandler'>");
      ("ThreadingMixIn", "<class 'socketserver.ThreadingMixIn'>");
      ("UnixStreamServer", "<class 'socketserver.UnixStreamServer'>");
      ("log", "<module 'onionbalance.log'>");
      ("config", "<module 'onionbalance.config'>");
      ("logger", "<Logger onionbalance>");
      ("StatusSocketHandler", "<class 'onionbalance.status.StatusSocketHandler'>");
      ("ThreadingSocketServer", "<class 'onionbalance.status.ThreadingSocketServer'>");
      ("StatusSocket", "<class 'onionbalance.status.StatusSocket'>") ].

(** The names of Python's [builtins] module. *)
Definition builtin_names : list string :=
  [ "abs"; "all"; "any"; "ascii"; "bin"; "bool"; "breakpoint"; "bytearray";
    "bytes"; "callable"; "chr"; "classmethod"; "compile"; "complex";
    "copyright"; "credits"; "delattr"; "dict"; "dir"; "divmod"; "enumerate";
    "eval"; "exec"; "exit"; "filter"; "float"; "format"; "frozenset";
    "getattr"; "globals"; "hasattr"; "hash"; "help"; "hex"; "id"; "input";
    "int"; "isinstance"; "issubclass"; "iter"; "len"; "license"; "list";
    "locals"; "map"; "max"; "memoryview"; "min"; "next"; "object"; "oct";
    "open"; "ord"; "pow"; "print"; "property"; "quit"; "range"; "repr";
    "reversed"; "round"; "set"; "setattr"; "slice"; "sorted"; "staticmethod";
    "str"; "sum"; "super"; "tuple"; "type"; "vars"; "zip"; "__import__";
    "__build_class__"; "__debug__"; "__doc__"; "__loader__"; "__name__";
    "__package__"; "__spec__";
    "None"; "True"; "False"; "Ellipsis"; "NotImplemented";
    "BaseException"; "Exception"; "ArithmeticError"; "AssertionError";
    "AttributeError"; "BlockingIOError"; "BrokenPipeError"; "BufferError";
    "BytesWarning"; "ChildProcessError"; "ConnectionAbortedError";
    "ConnectionError"; "ConnectionRefusedError"; "ConnectionResetError";
    "DeprecationWarning"; "EOFError"; "EnvironmentError"; "FileExistsError";
    "FileNotFoundError"; "FloatingPointError"; "FutureWarning";
    "GeneratorExit"; "IOError"; "ImportError"; "ImportWarning";
    "IndentationError"; "IndexError"; "InterruptedError";
    "IsADirectoryError"; "KeyError"; "KeyboardInterrupt"; "LookupError";
    "MemoryError"; "ModuleNotFoundError"; "NameError"; "NotADirectoryError";
    "NotImplementedError"; "OSError"; "OverflowError";
    "PendingDeprecationWarning"; "PermissionError"; "ProcessLookupError";
    "RecursionError"; "ReferenceError"; "ResourceWarning"; "RuntimeError";
    "RuntimeWarning"; "StopAsyncIteration"; "StopIteration"; "SyntaxError";
    "SyntaxWarning"; "SystemError"; "SystemExit"; "TabError"; "TimeoutError";
    "TypeError"; "UnboundLocalError"; "UnicodeDecodeError";
    "UnicodeEncodeError"; "UnicodeError"; "UnicodeTranslateError";
    "UnicodeWarning"; "UserWarning"; "ValueError"; "Warning";
    "ZeroDivisionError" ].

Definition builtins : namespace :=
  list_to_map (map (fun name => (name, "<built-in " +:+ name +:+ ">")) builtin_names).

(** Reading a name that the function neither takes as a parameter nor
    assigns: the module's globals, then the builtins, else [NameError]. *)
Definition load_global (name : string) : result string :=
  match module_globals !! name with
  | Some value => Ok value
  | None =>
      match builtins !! name with
      | Some value => Ok value
      | None => Raise (NameError name)
      end
  end.

(** ** The operating system *)

(** What the status socket asks of the operating system, on a world of type
    [W].  Each call returns the new world and [None] on success or the
    [errno] of the [OSError] it raises. *)
Class OperatingSystem (W : Type) : Type := {
  (** [os.unlink(path)] *)
  unlink : string -> W -> W * option Z;
  (** Creating, binding and activating the Unix stream socket at [path],
      as the constructor of [UnixStreamServer] does. *)
  bind_listen : string -> W -> W * option Z
}.

(** A small file system, for examples.  A path holds a file that can be
    removed, or one whose removal fails with some [errno]; a socket file can
    be created at the paths of [bindable] (their directory exists and is
    writable). *)
Inductive node : Type :=
| Removable
| Pinned (errno : Z).

Record filesystem : Type := {
  nodes : gmap string node;
  bindable : gset string
}.

#[global] Instance filesystem_os : OperatingSystem filesystem := {|
  unlink path fs :=
    match nodes fs !! path with
    | None => (fs, Some ENOENT)
    | Some Removable =>
        ({| nodes := delete path (nodes fs); bindable := bindable fs |}, None)
    | Some (Pinned errno) => (fs, Some errno)
    end;
  bind_listen path fs :=
    match nodes fs !! path with
    | Some _ => (fs, Some EADDRINUSE)
    | None =>
        if decide (path ∈ bindable fs) then
          ({| nodes := <[path := Removable]> (nodes fs);
              bindable := bindable fs |}, None)
        else (fs, Some ENOENT)
    end
|}.

(** ** [StatusSocket] *)

(** The module [config] as [__init__] reads it. *)
Record config_module : Type := {
  STATUS_SOCKET_LOCATION : string
}.

Module StatusSocket.

(** The [ThreadingSocketServer] object: whether its listening socket is
    open, and whether [serve_forever] runs in its thread. *)
Record socket_server : Type := {
  server_address : string;
  listening : bool;
  serving : bool
}.

(** The server object once its thread runs [serve_forever]. *)
Definition started (path : string) : socket_server :=
  {| server_address := path; listening := true; serving := true |}.

(** The server object once [shutdown] and [server_close] have run. *)
Definition closed (srv : socket_server) : socket_server :=
  {| server_address := server_address srv; listening := false; serving := false |}.

Section Socket.

Context {W : Type} {os : OperatingSystem W}.

(** The attributes of [self] (an attribute not yet assigned is [None]
    here, and reading it raises [AttributeError]), the operating system,
    and the logger. *)
Record state : Type := {
  unix_socket_filename : option string;
  server : option socket_server;
  world : W;
  log : list log_record
}.

Definition set_unix_socket_filename (path : string) (st : state) : state :=
  {| unix_socket_filename := Some path; server := server st;
     world := world st; log := log st |}.

Definition set_server (srv : socket_server) (st : state) : state :=
  {| unix_socket_filename := unix_socket_filename st; server := Some srv;
     world := world st; log := log st |}.

Definition set_world (w : W) (st : state) : state :=
  {| unix_socket_filename := unix_socket_filename st; server := server st;
     world := w; log := log st |}.

(** A call of the logger: [logger.debug(msg)], [logger.error(msg)], and
    [logger.exception(msg)], which logs an error with the traceback. *)
Definition emit (lvl : level) (msg : string) (exc : bool) : M state unit :=
  modify (fun st =>
    {| unix_socket_filename := unix_socket_filename st; server := server st;
       world := world st;
       log := log st ++ [{| levelname := lvl; message := msg;
                            exc_info := exc |}] |}).

(** [self.unix_socket_filename] *)
Definition get_unix_socket_filename : M state string := fun st =>
  match unix_socket_filename st with
  | Some path => (st, Ok path)
  | None => (st, Raise (AttributeError "unix_socket_filename"))
  end.

(** [self.server] *)
Definition get_server : M state socket_server := fun st =>
  match server st with
  | Some srv => (st, Ok srv)
  | None => (st, Raise (AttributeError "server"))
  end.

(** [os.unlink(path)] *)
Definition os_unlink (path : string) : M state unit := fun st =>
  match unlink path (world st) with
  | (w, None) => (set_world w st, Ok tt)
  | (w, Some errno) => (set_world w st, Raise (OSError errno))
  end.

(** [ThreadingSocketServer(path, StatusSocketHandler)] *)
Definition ThreadingSocketServer (path : string) : M state socket_server :=
  fun st =>
    match bind_listen path (world st) with
    | (w, None) =>
        (set_world w st,
         Ok {| server_address := path; listening := true; serving := false |})
    | (w, Some errno) => (set_world w st, Raise (OSError errno))
    end.

(** Starting the daemon thread that runs [self.server.serve_forever]. *)
Definition start_server_thread : M state unit :=
  srv ← get_server;
  modify (set_server {| server_address := server_address srv;
                        listening := listening srv; serving := true |}).

(** [self.server.shutdown()] *)
Definition shutdown : M state unit :=
  srv ← get_server;
  modify (set_server {| server_address := server_address srv;
                        listening := listening srv; serving := false |}).

(** [self.server.server_close()] *)
Definition server_close : M state unit :=
  srv ← get_server;
  modify (set_server {| server_address := server_address srv;
                        listening := false; serving := serving srv |}).

Definition cleanup_socket_file : M state unit :=
  try_except
    (path ← get_unix_socket_filename; os_unlink path)
    [ (is_OSError,
       fun e =>
         match e with
         | OSError errno =>
             if negb (errno =? ENOENT)%Z then raise e else mret tt
         | _ => raise e
         end) ].

Definition __init__ (config : config_module) : M state unit :=
  modify (set_unix_socket_filename (STATUS_SOCKET_LOCATION config));;
  cleanup_socket_file;;
  path ← get_unix_socket_filename;
  emit DEBUG ("Creating status socket at " +:+ path) false;;
  try_except
    (path ← get_unix_socket_filename;
     srv ← ThreadingSocketServer path;
     modify (set_server srv);;
     start_server_thread)
    [ (is_OSError,
       fun _ =>
         status_socket_location ← lift (load_global "status_socket_location");
         emit ERROR ("Could not start status socket at "
                       +:+ status_socket_location
                       +:+ ". Does the path exist? Do you have permission?")
              false) ].

(** The state once [__init__] has logged that it creates the socket. *)
Definition announced (path : string) (w : W) (st : state) : state :=
  {| unix_socket_filename := Some path; server := server st; world := w;
     log := log st ++ [{| levelname := DEBUG;
                          message := "Creating status socket at " +:+ path;
                          exc_info := false |}] |}.

Definition close : M state unit :=
  try_except
    (shutdown;;
     server_close;;
     cleanup_socket_file)
    [ (is_AttributeError, fun _ => mret tt);
      (is_OSError,
       fun _ => emit ERROR "Error when removing the status socket" true) ].

End Socket.

Arguments state W : clear implicits.

End StatusSocket.

(** ** Vocabulary of the statements *)

(** The line of a service. *)
Definition service_line (svc : service) : string :=
  service_onion_address svc +:+ ".onion " +:+
  match uploaded svc with
  | Some up => strftime up time_format
  | None => "[not uploaded]"
  end.

(** The line of an instance before any health suffix. *)
Definition instance_line (inst : instance) : string :=
  match timestamp inst with
  | None => "  " +:+ instance_onion_address inst +:+ ".onion [offline]"
  | Some refreshed =>
      "  " +:+ instance_onion_address inst +:+ ".onion "
      +:+ strftime refreshed time_format +:+ " "
      +:+ decimal (Z.of_nat (length (introduction_points inst))) +:+ " IPs"
  end.

(** The number of lines the services of a list take: one for each service
    and one for each of its instances. *)
Fixpoint line_count (services : list service) : nat :=
  match services with
  | [] => 0
  | svc :: rest => S (length (instances svc)) + line_count rest
  end.

(** [s.endswith(suffix)] *)
Definition ends_with (s suffix : string) : bool :=
  let n := String.length s in
  let k := String.length suffix in
  (k <=? n)%nat && String.eqb (String.substring (n - k) k s) suffix.

(** The bytes of lines that are each ended by a newline. *)
Definition terminated (lines : list string) : list byte :=
  flat_map (fun line => String.list_byte_of_string line ++ [x0a]) lines.

(** A report with [lines] put before it. *)
Definition prefixed (lines : list string) (r : result (list string))
  : result (list string) :=
  match r with
  | Ok response => Ok (lines ++ response)
  | Raise e => Raise e
  end.

(** What the renderer can raise: a configuration without the key [type],
    a last check time that is [None], or one that cannot be converted. *)
Definition render_error (e : exn) : Prop :=
  e = KeyError "type" \/ e = TypeError \/ e = OverflowError \/
  e = OSError EOVERFLOW \/ e = ValueError.

Section Renderable.

Variable localtime : Z -> option datetime.

(** The snapshots the renderer does not raise on: every service's
    configuration has the key [type], and where health is displayed the
    time of the last check is a number the platform can convert. *)
Definition instance_renderable (healthcheck : bool) (inst : instance) : bool :=
  negb healthcheck ||
  match is_healthy inst with
  | None => true
  | Some _ =>
      match last_check_time inst with
      | Some secs => is_not_None (localtime secs)
      | None => false
      end
  end.

Definition service_renderable (svc : service) : bool :=
  match health_check_conf svc !! "type" with
  | Some kind => forallb (instance_renderable (is_not_None kind)) (instances svc)
  | None => false
  end.

Definition renderable (services : list service) : bool :=
  forallb service_renderable services.

(** What the [if healthcheck:] block appends to the line of an instance;
    the empty string when it appends nothing. *)
Definition health_suffix (healthcheck : bool) (inst : instance) : result string :=
  if healthcheck then
    match is_healthy inst with
    | Some true =>
        ts ← fromtimestamp localtime (last_check_time inst);
        Ok (" [up at " +:+ strftime ts "%H:%M:%S" +:+ "]")
    | Some false =>
        ts ← fromtimestamp localtime (last_check_time inst);
        Ok (" [down at " +:+ strftime ts "%H:%M:%S" +:+ "]")
    | None => Ok ""
    end
  else Ok "".

(** [line] is the line of [inst] in a report. *)
Definition instance_rendered (healthcheck : bool) (inst : instance)
    (line : string) : Prop :=
  exists suffix,
    health_suffix healthcheck inst = Ok suffix /\
    line = instance_line inst +:+ suffix.

(** [block] is the lines of [svc] and of its instances in a report. *)
Definition service_rendered (svc : service) (block : list string) : Prop :=
  exists kind lines,
    health_check_conf svc !! "type" = Some kind /\
    block = service_line svc :: lines /\
    Forall2 (instance_rendered (is_not_None kind)) (instances svc) lines.

End Renderable.

(** ** A time zone for the examples: UTC *)

(** The civil date of a day number (days since 1970-01-01), by the usual
    era arithmetic of the proleptic Gregorian calendar. *)
Definition civil_from_days (days : Z) : Z * Z * Z :=
  (let z := days + 719468 in
   let era := z / 146097 in
   let doe := z - era * 146097 in
   let yoe := (doe - doe / 1460 + doe / 36524 - doe / 146096) / 365 in
   let doy := doe - (365 * yoe + yoe / 4 - yoe / 100) in
   let mp := (5 * doy + 2) / 153 in
   let d := doy - (153 * mp + 2) / 5 + 1 in
   let m := if mp <? 10 then mp + 3 else mp - 9 in
   let y := yoe + era * 400 + (if m <=? 2 then 1 else 0) in
   (y, m, d))%Z.

(** [localtime] of a process whose time zone is UTC.  The conversion
    succeeds from the second day of year 1 (it also converts the second a
    day earlier, to find out whether the local time is repeated) to the end
    of year 9999. *)
Definition utc (secs : Z) : option datetime :=
  if ((-62135510400 <=? secs) && (secs <=? 253402300799))%Z then
    let '(y, m, d) := civil_from_days (secs / 86400) in
    let rest := (secs mod 86400)%Z in
    Some {| year := y; month := m; day := d;
            hour := rest / 3600; minute := (rest mod 3600) / 60;
            second := rest mod 60 |}
  else None.

(** ** Example data *)

(** 2016-05-01 11:08:56 *)
Definition uploaded_at : datetime :=
  {| year := 2016; month := 5; day := 1; hour := 11; minute := 8; second := 56 |}.

(** 2016-05-01 11:00:00 *)
Definition refreshed_at : datetime :=
  {| year := 2016; month := 5; day := 1; hour := 11; minute := 0; second := 0 |}.

(** The epoch second of 2016-05-01 11:05:02 UTC. *)
Definition checked_at : Z := 1462100702.

(** The epoch second of 2016-05-01 11:08:56 UTC. *)
Definition upload_instant : Z := 1462100936.

(** [localtime] of a process whose time zone is two hours east of UTC. *)
Definition two_hours_east (secs : Z) : option datetime := utc (secs + 7200).

(** 0999-01-02 03:04:05 *)
Definition uploaded_in_999 : datetime :=
  {| year := 999; month := 1; day := 2; hour := 3; minute := 4; second := 5 |}.

(** A health check over TCP. *)
Definition tcp_check : gmap string (option string) :=
  list_to_map [("type", Some "tcp"); ("port", Some "80"); ("path", None)].

(** No health check. *)
Definition no_check : gmap string (option string) :=
  list_to_map [("type", None); ("port", None); ("path", None)].

Definition three_points : list introduction_point :=
  [IntroductionPoint "ip1"; IntroductionPoint "ip2"; IntroductionPoint "ip3"].

(** An instance that is online and was found healthy. *)
Definition online_instance : instance :=
  {| instance_onion_address := "def"; timestamp := Some refreshed_at;
     introduction_points := three_points; is_healthy := Some true;
     last_check_time := Some checked_at |}.

(** An instance whose descriptor was never received, and whose health check
    succeeded. *)
Definition offline_instance : instance :=
  {| instance_onion_address := "def"; timestamp := None;
     introduction_points := []; is_healthy := Some true;
     last_check_time := Some checked_at |}.

Definition abc_service (insts : list instance) : service :=
  {| service_onion_address := "abc"; uploaded := Some uploaded_at;
     health_check_conf := tcp_check; instances := insts |}.

(** A service with an upload time in the year 999 and no instance. *)
Definition old_service : service :=
  {| service_onion_address := "old"; uploaded := Some uploaded_in_999;
     health_check_conf := list_to_map [("type", None)]; instances := [] |}.

(** An instance nothing is known of yet. *)
Definition unknown_instance : instance :=
  {| instance_onion_address := "uvw"; timestamp := None;
     introduction_points := []; is_healthy := None; last_check_time := None |}.

(** A service that was never uploaded and has no health check. *)
Definition new_service : service :=
  {| service_onion_address := "xyz"; uploaded := None;
     health_check_conf := no_check; instances := [unknown_instance] |}.

(** The file system of a host where the directory of the socket is
    missing. *)
Definition no_directory : StatusSocket.state filesystem :=
  {| StatusSocket.unix_socket_filename := None;
     StatusSocket.server := None;
     StatusSocket.world := {| nodes := ∅; bindable := ∅ |};
     StatusSocket.log := [] |}.

(** The file system of a host where a stale socket file cannot be removed. *)
Definition pinned_file : StatusSocket.state filesystem :=
  {| StatusSocket.unix_socket_filename := None;
     StatusSocket.server := None;
     StatusSocket.world :=
       {| nodes := {[ "/var/run/onionbalance/control" := Pinned EACCES ]};
          bindable := {[ "/var/run/onionbalance/control" ]} |};
     StatusSocket.log := [] |}.

Definition default_config : config_module :=
  {| STATUS_SOCKET_LOCATION := "/var/run/onionbalance/control" |}.

(** A service whose health-check configuration has no key [type]. *)
Definition untyped_service : service :=
  {| service_onion_address := "bad"; uploaded := None;
     health_check_conf := ∅; instances := [online_instance] |}.

(** An instance found unhealthy by a check whose time was not recorded. *)
Definition unchecked_instance : instance :=
  {| instance_onion_address := "ghi"; timestamp := Some refreshed_at;
     introduction_points := []; is_healthy := Some false;
     last_check_time := None |}.

(** The file system of a host where a stale socket file is left from an
    earlier run and can be replaced. *)
Definition stale_file : StatusSocket.state filesystem :=
  {| StatusSocket.unix_socket_filename := None;
     StatusSocket.server := None;
     StatusSocket.world :=
       {| nodes := {[ "/var/run/onionbalance/control" := Removable ]};
          bindable := {[ "/var/run/onionbalance/control" ]} |};
     StatusSocket.log := [] |}.

(** The file system once the stale file is removed. *)
Definition stale_file_removed : filesystem :=
  fst (unlink (STATUS_SOCKET_LOCATION default_config)
         (StatusSocket.world stale_file)).

(** The file system once the socket is bound. *)
Definition socket_bound : filesystem :=
  fst (bind_listen (STATUS_SOCKET_LOCATION default_config) stale_file_removed).

(** * Facts about the renderer *)

Lemma string_app_empty_r (s : string) : s +:+ "" = s.
Proof.
  induction s as [|c s IH]; [reflexivity|].
  change (String c (s +:+ "") = String c s). now f_equal.
Qed.

Lemma append_to_last_snoc (response : list string) (line suffix : string) :
  append_to_last (response ++ [line]) suffix = Ok (response ++ [line +:+ suffix]).
Proof.
  unfold append_to_last. rewrite rev_app_distr. simpl.
  now rewrite rev_involutive.
Qed.

Section RendererFacts.

Variable localtime : Z -> option datetime.

Lemma render_instance_eq (healthcheck : bool) (response : list string)
    (inst : instance) :
  render_instance localtime healthcheck response inst =
  (suffix ← health_suffix localtime healthcheck inst;
   Ok (response ++ [instance_line inst +:+ suffix])).
Proof.
  unfold render_instance, health_suffix, instance_line.
  destruct healthcheck.
  - destruct (is_healthy inst) as [[|]|];
      [ destruct (fromtimestamp localtime (last_check_time inst)) as [ts|e]
      | destruct (fromtimestamp localtime (last_check_time inst)) as [ts|e]
      | ];
      destruct (timestamp inst); cbn [mbind result_bind];
      rewrite ?append_to_last_snoc, ?string_app_empty_r; reflexivity.
  - destruct (timestamp inst); cbn [mbind result_bind];
      rewrite ?string_app_empty_r; reflexivity.
Qed.

Lemma render_instances_inv (healthcheck : bool) :
  forall (l : list instance) (response out : list string),
    for_each (render_instance localtime healthcheck) response l = Ok out ->
    exists lines,
      out = response ++ lines /\
      Forall2 (instance_rendered localtime healthcheck) l lines.
Proof.
  induction l as [|inst rest IH]; intros response out H.
  - simpl in H. injection H as <-. exists []. split.
    + now rewrite app_nil_r.
    + constructor.
  - simpl in H. rewrite render_instance_eq in H.
    destruct (health_suffix localtime healthcheck inst) as [suffix|e] eqn:Hs;
      cbn [mbind result_bind] in H; [|discriminate].
    apply IH in H as (lines & -> & Hlines).
    exists ((instance_line inst +:+ suffix) :: lines). split.
    + now rewrite <- app_assoc.
    + constructor; [|assumption]. exists suffix. auto.
Qed.

Lemma render_service_inv (response out : list string) (svc : service) :
  render_service localtime response svc = Ok out ->
  exists block, out = response ++ block /\ service_rendered localtime svc block.
Proof.
  unfold render_service, getitem. intros H.
  destruct (health_check_conf svc !! "type") as [kind|] eqn:Hkind;
    cbn [mbind result_bind] in H; [|discriminate].
  apply render_instances_inv in H as (lines & -> & Hlines).
  exists (service_line svc :: lines). split.
  - now rewrite <- app_assoc.
  - exists kind, lines. auto.
Qed.

Lemma render_services_inv :
  forall (l : list service) (response out : list string),
    for_each (render_service localtime) response l = Ok out ->
    exists blocks,
      out = response ++ concat blocks /\
      Forall2 (service_rendered localtime) l blocks.
Proof.
  induction l as [|svc rest IH]; intros response out H.
  - simpl in H. injection H as <-. exists []. split.
    + simpl. now rewrite app_nil_r.
    + constructor.
  - simpl in H.
    destruct (render_service localtime response svc) as [mid|e] eqn:Hsvc;
      cbn [mbind result_bind] in H; [|discriminate].
    apply render_service_inv in Hsvc as (block & -> & Hblock).
    apply IH in H as (blocks & -> & Hblocks).
    exists (block :: blocks). split.
    + simpl. now rewrite <- app_assoc.
    + now constructor.
Qed.

Lemma build_response_inv (services : list service) (response : list string) :
  build_response localtime services = Ok response ->
  exists blocks,
    response = concat blocks ++ [""] /\
    Forall2 (service_rendered localtime) services blocks.
Proof.
  unfold build_response. intros H.
  destruct (for_each (render_service localtime) [] services) as [out|e] eqn:Hloop;
    cbn [mbind result_bind] in H; [|discriminate].
  injection H as <-.
  apply render_services_inv in Hloop as (blocks & -> & Hblocks).
  exists blocks. auto.
Qed.

Lemma rendered_line_count (l : list service) (blocks : list (list string)) :
  Forall2 (service_rendered localtime) l blocks ->
  length (concat blocks) = line_count l.
Proof.
  induction 1 as [|svc block l blocks (kind & lines & _ & -> & Hlines) _ IH].
  - reflexivity.
  - simpl. rewrite length_app, IH.
    now rewrite <- (Forall2_length _ _ _ Hlines).
Qed.

(** Where the lines of a service stand in the report. *)
Lemma located_block (before after : list service) (svc : service)
    (response : list string) :
  build_response localtime (before ++ svc :: after) = Ok response ->
  exists head block tail,
    response = head ++ block ++ tail /\
    length head = line_count before /\
    length response = line_count (before ++ svc :: after) + 1 /\
    service_rendered localtime svc block.
Proof.
  intros H. apply build_response_inv in H as (blocks & -> & Hblocks).
  pose proof (rendered_line_count _ _ Hblocks) as Hlen.
  apply Forall2_app_inv_l in Hblocks as (bs1 & bs2 & Hbefore & Hrest & ->).
  apply Forall2_cons_inv_l in Hrest as (block & bs3 & Hblock & Hafter & ->).
  exists (concat bs1), block, (concat bs3 ++ [""]). repeat split.
  - rewrite concat_app. simpl. now rewrite <- !app_assoc.
  - now apply rendered_line_count.
  - rewrite length_app, Hlen. reflexivity.
  - assumption.
Qed.

Lemma located_service (before after : list service) (svc : service)
    (response : list string) :
  build_response localtime (before ++ svc :: after) = Ok response ->
  length response = line_count (before ++ svc :: after) + 1 /\
  response !! line_count before = Some (service_line svc).
Proof.
  intros H.
  apply located_block in H
    as (head & block & tail & -> & Hhead & Hlen & kind & lines & _ & -> & _).
  split; [assumption|].
  rewrite <- Hhead. now apply list_lookup_middle.
Qed.

Lemma located_instance (before after : list service) (svc : service)
    (ibefore iafter : list instance) (inst : instance)
    (response : list string) :
  instances svc = ibefore ++ inst :: iafter ->
  build_response localtime (before ++ svc :: after) = Ok response ->
  exists kind suffix,
    health_check_conf svc !! "type" = Some kind /\
    health_suffix localtime (is_not_None kind) inst = Ok suffix /\
    response !! (line_count before + 1 + length ibefore)
      = Some (instance_line inst +:+ suffix).
Proof.
  intros Hinst H.
  apply located_block in H
    as (head & block & tail & -> & Hhead & _ & kind & lines & Hkind & -> & Hlines).
  rewrite Hinst in Hlines.
  apply Forall2_app_inv_l in Hlines as (ls1 & ls2 & Hib & Hrest & ->).
  apply Forall2_cons_inv_l in Hrest as (line & ls3 & (suffix & Hs & ->) & _ & ->).
  exists kind, suffix. repeat split; [assumption..|].
  replace (head ++ (service_line svc :: ls1 ++ (instance_line inst +:+ suffix) :: ls3) ++ tail)
    with ((head ++ service_line svc :: ls1)
            ++ (instance_line inst +:+ suffix) :: (ls3 ++ tail)).
  - apply list_lookup_middle.
    rewrite length_app. simpl. rewrite Hhead, <- (Forall2_length _ _ _ Hib). lia.
  - rewrite <- !app_assoc. simpl. now rewrite <- !app_assoc.
Qed.

Lemma health_suffix_renderable (healthcheck : bool) (inst : instance) :
  instance_renderable localtime healthcheck inst = true <->
  exists suffix, health_suffix localtime healthcheck inst = Ok suffix.
Proof.
  unfold instance_renderable, health_suffix, fromtimestamp.
  destruct healthcheck; simpl; [|split; eauto].
  destruct (is_healthy inst) as [[|]|]; [| |split; eauto];
    (destruct (last_check_time inst) as [secs|];
     [destruct (localtime secs)|]; simpl;
     (split; [intros; try discriminate; eauto | intros [? ?]; congruence])).
Qed.

Lemma health_suffix_cases (healthcheck : bool) (inst : instance)
    (suffix : string) :
  health_suffix localtime healthcheck inst = Ok suffix ->
  match healthcheck, is_healthy inst with
  | true, Some true =>
      exists ts, fromtimestamp localtime (last_check_time inst) = Ok ts /\
                 suffix = " [up at " +:+ strftime ts "%H:%M:%S" +:+ "]"
  | true, Some false =>
      exists ts, fromtimestamp localtime (last_check_time inst) = Ok ts /\
                 suffix = " [down at " +:+ strftime ts "%H:%M:%S" +:+ "]"
  | _, _ => suffix = ""
  end.
Proof.
  unfold health_suffix. intros H.
  destruct healthcheck; [|congruence].
  destruct (is_healthy inst) as [[|]|]; [| |congruence];
    (destruct (fromtimestamp localtime (last_check_time inst)) as [ts|e];
     cbn [mbind result_bind] in H; [|discriminate H];
     injection H as <-; eauto).
Qed.

Lemma render_instances_ok (healthcheck : bool) :
  forall (l : list instance) (response : list string),
    forallb (instance_renderable localtime healthcheck) l = true ->
    exists out, for_each (render_instance localtime healthcheck) response l = Ok out.
Proof.
  induction l as [|inst rest IH]; intros response H; simpl in *.
  - eauto.
  - apply andb_true_iff in H as [Hinst Hrest].
    apply health_suffix_renderable in Hinst as [suffix Hs].
    rewrite render_instance_eq, Hs. cbn [mbind result_bind]. now apply IH.
Qed.

Lemma render_services_ok :
  forall (l : list service) (response : list string),
    renderable localtime l = true ->
    exists out, for_each (render_service localtime) response l = Ok out.
Proof.
  unfold renderable.
  induction l as [|svc rest IH]; intros response H; simpl in *.
  - eauto.
  - apply andb_true_iff in H as [Hsvc Hrest].
    unfold service_renderable in Hsvc. unfold render_service, getitem.
    destruct (health_check_conf svc !! "type") as [kind|]; [|discriminate].
    cbn [mbind result_bind].
    destruct (render_instances_ok (is_not_None kind) (instances svc)
                (response ++ [service_line svc]) Hsvc) as [mid Hmid].
    unfold service_line in Hmid. rewrite Hmid. cbn [mbind result_bind].
    now apply IH.
Qed.

(** The renderer returns a report exactly on the renderable snapshots. *)
Lemma build_response_ok (services : list service) :
  renderable localtime services = true <->
  exists response, build_response localtime services = Ok response.
Proof.
  split.
  - intros H. unfold build_response.
    destruct (render_services_ok services [] H) as [out ->].
    cbn [mbind result_bind]. eauto.
  - intros [response H].
    apply build_response_inv in H as (blocks & _ & Hblocks).
    unfold renderable. apply forallb_forall. intros svc Hin.
    apply list_elem_of_In, list_elem_of_lookup_1 in Hin as [i Hi].
    destruct (Forall2_lookup_l _ _ _ _ _ Hblocks Hi)
      as (block & _ & kind & lines & Hkind & _ & Hlines).
    unfold service_renderable. rewrite Hkind.
    apply forallb_forall. intros inst Hinst.
    apply health_suffix_renderable.
    apply list_elem_of_In, list_elem_of_lookup_1 in Hinst as [j Hj].
    destruct (Forall2_lookup_l _ _ _ _ _ Hlines Hj)
      as (line & _ & suffix & Hs & _).
    eauto.
Qed.

End RendererFacts.

(** * Facts about [strftime] and strings *)

Lemma below_by_enumeration (P : Z -> bool) (bound : nat) :
  forallb (fun n => P (Z.of_nat n)) (seq 0 bound) = true ->
  forall z, (0 <= z < Z.of_nat bound)%Z -> P z = true.
Proof.
  intros Hall z Hz. rewrite forallb_forall in Hall.
  specialize (Hall (Z.to_nat z)). rewrite Z2Nat.id in Hall by lia.
  apply Hall, in_seq. lia.
Qed.

Lemma zfill_two_digits (z : Z) :
  (0 <= z < 100)%Z -> two_digits (zfill 2 (decimal z)) = true.
Proof.
  apply (below_by_enumeration (fun z => two_digits (zfill 2 (decimal z))) 100).
  vm_compute. reflexivity.
Qed.

Lemma decimal_four_digits (z : Z) :
  (1000 <= z < 10000)%Z -> four_digits (decimal z) = true.
Proof.
  intros Hz.
  assert (H : ((z <? 1000)%Z || four_digits (decimal z)) = true).
  { apply (below_by_enumeration
             (fun z => (z <? 1000)%Z || four_digits (decimal z)) (100 * 100));
      [vm_compute; reflexivity | lia]. }
  apply orb_true_iff in H as [H | H]; [|assumption].
  apply Z.ltb_lt in H. lia.
Qed.

Lemma strftime_time_format (dt : datetime) :
  strftime dt time_format =
  decimal (year dt) +:+ "-" +:+ zfill 2 (decimal (month dt)) +:+ "-"
  +:+ zfill 2 (decimal (day dt)) +:+ " " +:+ zfill 2 (decimal (hour dt)) +:+ ":"
  +:+ zfill 2 (decimal (minute dt)) +:+ ":" +:+ zfill 2 (decimal (second dt)).
Proof.
  unfold time_format. cbn [strftime directive].
  now rewrite string_app_empty_r.
Qed.

Lemma strftime_time_of_day (dt : datetime) :
  strftime dt "%H:%M:%S" =
  zfill 2 (decimal (hour dt)) +:+ ":" +:+ zfill 2 (decimal (minute dt)) +:+ ":"
  +:+ zfill 2 (decimal (second dt)).
Proof.
  cbn [strftime directive]. now rewrite string_app_empty_r.
Qed.

Ltac two_digit_cases H :=
  match type of H with
  | two_digits ?s = true =>
      destruct s as [|? [|? [|? ?]]]; try discriminate H;
      apply andb_true_iff in H as [? ?]
  end.

(** A valid date of a year from 1000 on is printed in the shape
    [YYYY-MM-DD HH:MM:SS]. *)
Lemma strftime_is_date_time (dt : datetime) :
  valid_datetime dt = true -> (1000 <= year dt)%Z ->
  is_date_time (strftime dt time_format) = true.
Proof.
  unfold valid_datetime. rewrite !andb_true_iff.
  rewrite !Z.leb_le, !Z.ltb_lt. intros Hvalid Hyear.
  assert (Hy : four_digits (decimal (year dt)) = true)
    by (apply decimal_four_digits; lia).
  assert (Hm : two_digits (zfill 2 (decimal (month dt))) = true)
    by (apply zfill_two_digits; lia).
  assert (Hd : two_digits (zfill 2 (decimal (day dt))) = true)
    by (apply zfill_two_digits; lia).
  assert (Hh : two_digits (zfill 2 (decimal (hour dt))) = true)
    by (apply zfill_two_digits; lia).
  assert (Hn : two_digits (zfill 2 (decimal (minute dt))) = true)
    by (apply zfill_two_digits; lia).
  assert (Hs : two_digits (zfill 2 (decimal (second dt))) = true)
    by (apply zfill_two_digits; lia).
  rewrite strftime_time_format.
  destruct (decimal (year dt)) as [|y1 [|y2 [|y3 [|y4 [|? ?]]]]];
    try discriminate Hy.
  apply andb_true_iff in Hy as [Hy Hy4]. apply andb_true_iff in Hy as [Hy Hy3].
  apply andb_true_iff in Hy as [Hy1 Hy2].
  two_digit_cases Hm. two_digit_cases Hd. two_digit_cases Hh.
  two_digit_cases Hn. two_digit_cases Hs.
  unfold is_date_time.
  cbv [String.append String.list_ascii_of_string forallb].
  repeat match goal with H : is_digit _ = true |- _ => rewrite H; clear H end.
  reflexivity.
Qed.

(** A valid time is printed in the shape [HH:MM:SS]. *)
Lemma strftime_is_time_of_day (dt : datetime) :
  valid_datetime dt = true -> is_time_of_day (strftime dt "%H:%M:%S") = true.
Proof.
  unfold valid_datetime. rewrite !andb_true_iff.
  rewrite !Z.leb_le, !Z.ltb_lt. intros Hvalid.
  assert (Hh : two_digits (zfill 2 (decimal (hour dt))) = true)
    by (apply zfill_two_digits; lia).
  assert (Hn : two_digits (zfill 2 (decimal (minute dt))) = true)
    by (apply zfill_two_digits; lia).
  assert (Hs : two_digits (zfill 2 (decimal (second dt))) = true)
    by (apply zfill_two_digits; lia).
  rewrite strftime_time_of_day.
  two_digit_cases Hh. two_digit_cases Hn. two_digit_cases Hs.
  unfold is_time_of_day.
  cbv [String.append String.list_ascii_of_string forallb].
  repeat match goal with H : is_digit _ = true |- _ => rewrite H; clear H end.
  reflexivity.
Qed.

Lemma string_length_app (s t : string) :
  String.length (s +:+ t) = String.length s + String.length t.
Proof.
  induction s as [|c s IH]; [reflexivity|].
  change (S (String.length (s +:+ t)) = S (String.length s + String.length t)).
  now rewrite IH.
Qed.

Lemma substring_all (s : string) : String.substring 0 (String.length s) s = s.
Proof.
  induction s as [|c s IH]; [reflexivity|].
  change (String c (String.substring 0 (String.length s) s) = String c s).
  now rewrite IH.
Qed.

Lemma substring_app_r (s t : string) :
  String.substring (String.length s) (String.length t) (s +:+ t) = t.
Proof.
  induction s as [|c s IH]; [apply substring_all | exact IH].
Qed.

(** A text ends with what was appended to it last. *)
Lemma ends_with_app (s t : string) : ends_with (s +:+ t) t = true.
Proof.
  unfold ends_with. rewrite string_length_app.
  replace (String.length s + String.length t - String.length t)
    with (String.length s) by lia.
  rewrite substring_app_r, String.eqb_refl, andb_true_r.
  apply Nat.leb_le. lia.
Qed.

Lemma string_app_assoc (s t u : string) : (s +:+ t) +:+ u = s +:+ t +:+ u.
Proof.
  induction s as [|c s IH]; [reflexivity|].
  change (String c ((s +:+ t) +:+ u) = String c (s +:+ t +:+ u)).
  now rewrite IH.
Qed.

(** * The report *)

Section Report.

Variable localtime : Z -> option datetime.

(** C5, as the code has it. Every service of a snapshot the renderer
    accepts has one line in the report, at the place its position in the
    snapshot gives: its onion address, [.onion], a space, and a time or a
    marker.  For a service that was uploaded, the time is made of the
    fields of the stored date as they are, whatever the time zone of the
    process: the year in decimal, the month and the day on two digits,
    between dashes, a space, and the hour, the minute and the second on two
    digits, between colons.  For a valid date of a year from 1000 on this
    has the shape [YYYY-MM-DD HH:MM:SS].  For a service that was never
    uploaded the marker is [[not uploaded]].  The report has one line for
    each service, one for each instance, and the closing empty line. *)
Theorem service_line_in_report (before after : list service) (svc : service) :
  renderable localtime (before ++ svc :: after) = true ->
  exists response stamp,
    build_response localtime (before ++ svc :: after) = Ok response /\
    length response = line_count (before ++ svc :: after) + 1 /\
    response !! line_count before =
      Some (service_onion_address svc +:+ ".onion " +:+ stamp) /\
    match uploaded svc with
    | Some up =>
        stamp =
          decimal (year up) +:+ "-" +:+ zfill 2 (decimal (month up)) +:+ "-"
          +:+ zfill 2 (decimal (day up)) +:+ " "
          +:+ zfill 2 (decimal (hour up)) +:+ ":"
          +:+ zfill 2 (decimal (minute up)) +:+ ":"
          +:+ zfill 2 (decimal (second up)) /\
        (valid_datetime up = true -> (1000 <= year up)%Z ->
         is_date_time stamp = true)
    | None => stamp = "[not uploaded]"
    end.
Proof.
  intros Hok. apply build_response_ok in Hok as [response Hresponse].
  apply located_service in Hresponse as Hplace. destruct Hplace as [Hlen Hline].
  unfold service_line in Hline.
  exists response.
  exists (match uploaded svc with
          | Some up => strftime up time_format
          | None => "[not uploaded]"
          end).
  split; [assumption|]. split; [assumption|]. split; [assumption|].
  destruct (uploaded svc) as [up|]; [|reflexivity].
  split; [apply strftime_time_format | apply strftime_is_date_time].
Qed.

(** C4. In the report of a snapshot the renderer accepts, the line of an
    instance is its line without health information followed by a suffix.
    The suffix is not empty if and only if the health-check kind of its
    service is not [None] and its health status is known; it is then
    [ [up at HH:MM:SS]] for a healthy instance and [ [down at HH:MM:SS]]
    for an unhealthy one, with the local time of the last check.  When the
    status is unknown nothing is appended. *)
Theorem health_suffix_iff (before after : list service) (svc : service)
    (ibefore iafter : list instance) (inst : instance) :
  instances svc = ibefore ++ inst :: iafter ->
  renderable localtime (before ++ svc :: after) = true ->
  exists response kind suffix,
    build_response localtime (before ++ svc :: after) = Ok response /\
    health_check_conf svc !! "type" = Some kind /\
    response !! (line_count before + 1 + length ibefore)
      = Some (instance_line inst +:+ suffix) /\
    (suffix <> "" <-> kind <> None /\ is_healthy inst <> None) /\
    match kind, is_healthy inst with
    | Some _, Some true =>
        exists ts, fromtimestamp localtime (last_check_time inst) = Ok ts /\
                   suffix = " [up at " +:+ strftime ts "%H:%M:%S" +:+ "]" /\
                   (valid_datetime ts = true ->
                    is_time_of_day (strftime ts "%H:%M:%S") = true)
    | Some _, Some false =>
        exists ts, fromtimestamp localtime (last_check_time inst) = Ok ts /\
                   suffix = " [down at " +:+ strftime ts "%H:%M:%S" +:+ "]" /\
                   (valid_datetime ts = true ->
                    is_time_of_day (strftime ts "%H:%M:%S") = true)
    | _, _ => suffix = ""
    end.
Proof.
  intros Hinst Hok. apply build_response_ok in Hok as [response Hresponse].
  destruct (located_instance localtime _ _ _ _ _ _ _ Hinst Hresponse)
    as (kind & suffix & Hkind & Hsuffix & Hline).
  apply health_suffix_cases in Hsuffix.
  exists response, kind, suffix.
  split; [assumption|]. split; [assumption|]. split; [assumption|].
  destruct kind as [k|]; cbn [is_not_None] in Hsuffix.
  - destruct (is_healthy inst) as [[|]|].
    + destruct Hsuffix as (ts & Hts & ->). split.
      * split; [easy | intros _ Hempty; discriminate Hempty].
      * exists ts. split; [assumption|]. split; [reflexivity|].
        apply strftime_is_time_of_day.
    + destruct Hsuffix as (ts & Hts & ->). split.
      * split; [easy | intros _ Hempty; discriminate Hempty].
      * exists ts. split; [assumption|]. split; [reflexivity|].
        apply strftime_is_time_of_day.
    + subst suffix. split; [|reflexivity].
      split; [easy | intros [_ Hknown]; easy].
  - subst suffix. split; [|reflexivity].
    split; [easy | intros [Hnone _]; easy].
Qed.

(** C3, as the code has it. In the report of a snapshot the renderer
    accepts, the line of an instance with no last-refresh time is two
    spaces, its onion address and [.onion [offline]], with no count of
    introduction points, followed by the health suffix.  The suffix is
    empty, and the line ends in [[offline]], when the health-check kind of
    the service is [None] or the health status is unknown; otherwise the
    suffix is [ [up at HH:MM:SS]] or [ [down at HH:MM:SS]] and stands
    after [[offline]]. *)
Theorem offline_instance_line (before after : list service) (svc : service)
    (ibefore iafter : list instance) (inst : instance) :
  instances svc = ibefore ++ inst :: iafter ->
  timestamp inst = None ->
  renderable localtime (before ++ svc :: after) = true ->
  exists response kind suffix line,
    build_response localtime (before ++ svc :: after) = Ok response /\
    health_check_conf svc !! "type" = Some kind /\
    response !! (line_count before + 1 + length ibefore) = Some line /\
    line = "  " +:+ instance_onion_address inst +:+ ".onion [offline]" +:+ suffix /\
    (kind = None \/ is_healthy inst = None ->
     suffix = "" /\ ends_with line "[offline]" = true) /\
    match kind, is_healthy inst with
    | Some _, Some true =>
        exists ts, fromtimestamp localtime (last_check_time inst) = Ok ts /\
                   suffix = " [up at " +:+ strftime ts "%H:%M:%S" +:+ "]"
    | Some _, Some false =>
        exists ts, fromtimestamp localtime (last_check_time inst) = Ok ts /\
                   suffix = " [down at " +:+ strftime ts "%H:%M:%S" +:+ "]"
    | _, _ => suffix = ""
    end.
Proof.
  intros Hinst Hoffline Hok.
  apply build_response_ok in Hok as [response Hresponse].
  destruct (located_instance localtime _ _ _ _ _ _ _ Hinst Hresponse)
    as (kind & suffix & Hkind & Hsuffix & Hline).
  apply health_suffix_cases in Hsuffix.
  unfold instance_line in Hline. rewrite Hoffline in Hline.
  rewrite !string_app_assoc in Hline.
  exists response, kind, suffix,
    ("  " +:+ instance_onion_address inst +:+ ".onion [offline]" +:+ suffix).
  split; [assumption|]. split; [assumption|]. split; [assumption|].
  split; [reflexivity|]. split.
  - intros Hquiet.
    assert (suffix = "") as ->.
    { destruct Hquiet as [-> | Hunknown]; [assumption|].
      rewrite Hunknown in Hsuffix. now destruct kind. }
    split; [reflexivity|].
    rewrite string_app_empty_r.
    change (".onion [offline]") with (".onion " +:+ "[offline]").
    rewrite <- !string_app_assoc. apply ends_with_app.
  - destruct kind; cbn [is_not_None] in Hsuffix; [|assumption].
    destruct (is_healthy inst) as [[|]|]; assumption.
Qed.

End Report.

Section Scenario.

Variable localtime : Z -> option datetime.

(** C6. The service [abc], uploaded at 2016-05-01 11:08:56, with any
    health check configured and the one instance [def], refreshed at
    2016-05-01 11:00:00, with three introduction points, healthy, last
    checked at a second whose local time of day is 11:05:02: the report
    is the two lines of the scenario and the closing empty line, and the
    bytes written are these two lines, each ended by a newline. *)
Theorem scenario_report (conf : gmap string (option string)) (kind : string)
    (points : list introduction_point) (checked : Z) (ts : datetime) :
  conf !! "type" = Some (Some kind) ->
  length points = 3 ->
  localtime checked = Some ts ->
  hour ts = 11%Z -> minute ts = 5%Z -> second ts = 2%Z ->
  let inst :=
    {| instance_onion_address := "def"; timestamp := Some refreshed_at;
       introduction_points := points; is_healthy := Some true;
       last_check_time := Some checked |} in
  let svc :=
    {| service_onion_address := "abc"; uploaded := Some uploaded_at;
       health_check_conf := conf; instances := [inst] |} in
  build_response localtime [svc] =
    Ok [ "abc.onion 2016-05-01 11:08:56";
         "  def.onion 2016-05-01 11:00:00 3 IPs [up at 11:05:02]";
         "" ] /\
  render localtime [svc] =
    Ok (String.list_byte_of_string
          ("abc.onion 2016-05-01 11:08:56" +:+ newline +:+
           "  def.onion 2016-05-01 11:00:00 3 IPs [up at 11:05:02]" +:+ newline)).
Proof.
  intros Hkind Hpoints Hlocal Hhour Hminute Hsecond inst svc.
  assert (Hreport : build_response localtime [svc] =
    Ok [ "abc.onion 2016-05-01 11:08:56";
         "  def.onion 2016-05-01 11:00:00 3 IPs [up at 11:05:02]";
         "" ]).
  { unfold build_response, svc. cbn [for_each]. unfold render_service.
    cbn [health_check_conf instances uploaded service_onion_address].
    unfold getitem. rewrite Hkind. cbn [mbind result_bind is_not_None for_each].
    rewrite render_instance_eq. unfold health_suffix, fromtimestamp, inst.
    cbn [is_healthy last_check_time]. rewrite Hlocal.
    cbn [mbind result_bind]. rewrite strftime_time_of_day.
    rewrite Hhour, Hminute, Hsecond.
    unfold instance_line.
    cbn [timestamp instance_onion_address introduction_points].
    rewrite Hpoints. reflexivity. }
  split; [exact Hreport|].
  unfold render. rewrite Hreport. reflexivity.
Qed.

End Scenario.

(** The scenario of C6 in a process whose time zone is UTC. *)
Lemma scenario_report_utc :
  build_response utc [abc_service [online_instance]] =
    Ok [ "abc.onion 2016-05-01 11:08:56";
         "  def.onion 2016-05-01 11:00:00 3 IPs [up at 11:05:02]";
         "" ] /\
  render utc [abc_service [online_instance]] =
    Ok (String.list_byte_of_string
          ("abc.onion 2016-05-01 11:08:56" +:+ newline +:+
           "  def.onion 2016-05-01 11:00:00 3 IPs [up at 11:05:02]" +:+ newline)).
Proof.
  apply (scenario_report utc tcp_check "tcp" three_points checked_at
           {| year := 2016; month := 5; day := 1;
              hour := 11; minute := 5; second := 2 |});
    reflexivity.
Defined.

(** C5 as amended, at the second service of a snapshot of two, in UTC. *)
Lemma service_line_in_report_utc :
  exists response stamp,
    build_response utc ([new_service] ++ abc_service [online_instance] :: [])
      = Ok response /\
    length response
      = line_count ([new_service] ++ abc_service [online_instance] :: []) + 1 /\
    response !! line_count [new_service] =
      Some (service_onion_address (abc_service [online_instance])
            +:+ ".onion " +:+ stamp) /\
    match uploaded (abc_service [online_instance]) with
    | Some up =>
        stamp =
          decimal (year up) +:+ "-" +:+ zfill 2 (decimal (month up)) +:+ "-"
          +:+ zfill 2 (decimal (day up)) +:+ " "
          +:+ zfill 2 (decimal (hour up)) +:+ ":"
          +:+ zfill 2 (decimal (minute up)) +:+ ":"
          +:+ zfill 2 (decimal (second up)) /\
        (valid_datetime up = true -> (1000 <= year up)%Z ->
         is_date_time stamp = true)
    | None => stamp = "[not uploaded]"
    end.
Proof.
  apply (service_line_in_report utc [new_service] []
           (abc_service [online_instance])).
  vm_compute. reflexivity.
Defined.

(** C5 as the specification states it fails.  The time of the upload is
    printed as it is stored and not in local time: in a process two hours
    east of UTC, a service whose stored time is the UTC time 11:08:56 of
    an instant is printed with 11:08:56, while the local time of that
    instant is 13:08:56.  And a valid date of a year below 1000 is not
    printed in the shape [YYYY-MM-DD HH:MM:SS]: the year 999 is printed on
    three digits. *)
Lemma service_time_printed_as_stored :
  utc upload_instant = Some uploaded_at /\
  two_hours_east upload_instant =
    Some {| year := 2016; month := 5; day := 1;
            hour := 13; minute := 8; second := 56 |} /\
  build_response two_hours_east [abc_service []] =
    Ok [ "abc.onion 2016-05-01 11:08:56"; "" ] /\
  valid_datetime (uploaded_in_999) = true /\
  build_response utc [old_service] =
    Ok [ "old.onion 999-01-02 03:04:05"; "" ] /\
  is_date_time "999-01-02 03:04:05" = false.
Proof.
  repeat split; vm_compute; reflexivity.
Qed.

(** C4 at the second instance of the second service, in UTC. *)
Lemma health_suffix_iff_utc :
  exists response kind suffix,
    build_response utc
      ([new_service] ++ abc_service [offline_instance; online_instance] :: [])
      = Ok response /\
    health_check_conf (abc_service [offline_instance; online_instance]) !! "type"
      = Some kind /\
    response !! (line_count [new_service] + 1 + length [offline_instance])
      = Some (instance_line online_instance +:+ suffix) /\
    (suffix <> "" <-> kind <> None /\ is_healthy online_instance <> None) /\
    match kind, is_healthy online_instance with
    | Some _, Some true =>
        exists ts, fromtimestamp utc (last_check_time online_instance) = Ok ts /\
                   suffix = " [up at " +:+ strftime ts "%H:%M:%S" +:+ "]" /\
                   (valid_datetime ts = true ->
                    is_time_of_day (strftime ts "%H:%M:%S") = true)
    | Some _, Some false =>
        exists ts, fromtimestamp utc (last_check_time online_instance) = Ok ts /\
                   suffix = " [down at " +:+ strftime ts "%H:%M:%S" +:+ "]" /\
                   (valid_datetime ts = true ->
                    is_time_of_day (strftime ts "%H:%M:%S") = true)
    | _, _ => suffix = ""
    end.
Proof.
  apply (health_suffix_iff utc [new_service] []
           (abc_service [offline_instance; online_instance])
           [offline_instance] [] online_instance).
  - reflexivity.
  - vm_compute. reflexivity.
Defined.

(** C3 as amended, at an offline instance of a service with a health check
    and at one of a service with none, in UTC. *)
Lemma offline_instance_line_utc :
  exists response kind suffix line,
    build_response utc
      ([new_service] ++ abc_service [online_instance; offline_instance] :: [])
      = Ok response /\
    health_check_conf (abc_service [online_instance; offline_instance]) !! "type"
      = Some kind /\
    response !! (line_count [new_service] + 1 + length [online_instance])
      = Some line /\
    line = "  " +:+ instance_onion_address offline_instance
           +:+ ".onion [offline]" +:+ suffix /\
    (kind = None \/ is_healthy offline_instance = None ->
     suffix = "" /\ ends_with line "[offline]" = true) /\
    match kind, is_healthy offline_instance with
    | Some _, Some true =>
        exists ts, fromtimestamp utc (last_check_time offline_instance) = Ok ts /\
                   suffix = " [up at " +:+ strftime ts "%H:%M:%S" +:+ "]"
    | Some _, Some false =>
        exists ts, fromtimestamp utc (last_check_time offline_instance) = Ok ts /\
                   suffix = " [down at " +:+ strftime ts "%H:%M:%S" +:+ "]"
    | _, _ => suffix = ""
    end.
Proof.
  apply (offline_instance_line utc [new_service] []
           (abc_service [online_instance; offline_instance])
           [online_instance] [] offline_instance).
  - reflexivity.
  - reflexivity.
  - vm_compute. reflexivity.
Defined.

(** C3 as the specification states it fails: an offline instance of a
    service with a health check, found healthy, has the line
    [  def.onion [offline] [up at 11:05:02]], which does not end in
    [[offline]] and carries a health suffix. *)
Lemma offline_line_with_health_suffix :
  timestamp offline_instance = None /\
  build_response utc [abc_service [offline_instance]] =
    Ok [ "abc.onion 2016-05-01 11:08:56";
         "  def.onion [offline] [up at 11:05:02]";
         "" ] /\
  ends_with "  def.onion [offline] [up at 11:05:02]" "[offline]" = false.
Proof.
  repeat split; vm_compute; reflexivity.
Qed.

(** * The connection handler *)

Lemma for_each_raise_inv {A S : Type} (P : exn -> Prop) (body : S -> A -> result S) :
  (forall acc x e, body acc x = Raise e -> P e) ->
  forall (l : list A) (acc : S) (e : exn), for_each body acc l = Raise e -> P e.
Proof.
  intros Hbody. induction l as [|x rest IH]; intros acc e H; simpl in H.
  - discriminate.
  - destruct (body acc x) as [mid|e'] eqn:Hx; cbn [mbind result_bind] in H.
    + eapply IH, H.
    + injection H as <-. eapply Hbody, Hx.
Qed.

Section HandlerFacts.

Import StatusSocketHandler.

Variable localtime : Z -> option datetime.

Lemma conversion_failure_cases (secs : Z) :
  conversion_failure secs = OverflowError \/
  conversion_failure secs = OSError EOVERFLOW \/
  conversion_failure secs = ValueError.
Proof.
  unfold conversion_failure.
  destruct ((secs <? - 2 ^ 63) || (2 ^ 63 <=? secs))%Z; [now left|].
  destruct ((secs <? -67768040609740800) || (67768036191676799 <? secs))%Z;
    auto.
Qed.

Lemma render_instance_raises (healthcheck : bool) (response : list string)
    (inst : instance) (e : exn) :
  render_instance localtime healthcheck response inst = Raise e -> render_error e.
Proof.
  rewrite render_instance_eq. unfold health_suffix, fromtimestamp, render_error.
  destruct healthcheck; [|discriminate].
  destruct (is_healthy inst) as [[|]|]; [| |discriminate];
    (destruct (last_check_time inst) as [secs|];
     [destruct (localtime secs)|]; cbn [mbind result_bind];
     intros H; try discriminate H; injection H as <-;
     try (destruct (conversion_failure_cases secs) as [-> | [-> | ->]]);
     auto 6).
Qed.

Lemma render_service_raises (response : list string) (svc : service) (e : exn) :
  render_service localtime response svc = Raise e -> render_error e.
Proof.
  unfold render_service, getitem.
  destruct (health_check_conf svc !! "type") as [kind|]; cbn [mbind result_bind].
  - apply for_each_raise_inv. intros acc inst e'. apply render_instance_raises.
  - intros H. injection H as <-. left. reflexivity.
Qed.

Lemma build_response_raises (svcs : list service) (e : exn) :
  build_response localtime svcs = Raise e -> render_error e.
Proof.
  unfold build_response.
  destruct (for_each (render_service localtime) [] svcs) as [out|e'] eqn:Hloop;
    cbn [mbind result_bind]; [discriminate|].
  intros H. injection H as <-.
  eapply (for_each_raise_inv render_error), Hloop.
  intros acc svc e''. apply render_service_raises.
Qed.

Lemma render_error_is_Exception (e : exn) : render_error e -> is_Exception e = true.
Proof. intros [-> | [-> | [-> | [-> | ->]]]]; reflexivity. Qed.

Lemma send_status_eq (st : state) :
  send_status localtime st =
  match build_response localtime (services st) with
  | Ok response => sendall (encode_response response) st
  | Raise e => (st, Raise e)
  end.
Proof.
  unfold send_status, gets, lift, mbind, M_bind.
  destruct (build_response localtime (services st)); reflexivity.
Qed.

(** What a write does: the snapshot and the log stay, the bytes written
    grow, and only [OSError] is raised. *)
Lemma sendall_frame (data : list byte) (st : state) :
  services (fst (sendall data st)) = services st /\
  log (fst (sendall data st)) = log st /\
  (exists written, sent (request (fst (sendall data st)))
                   = sent (request st) ++ written) /\
  (snd (sendall data st) = Ok tt \/
   exists errno, snd (sendall data st) = Raise (OSError errno)).
Proof.
  unfold sendall. destruct (fault (request st)) as [[room errno]|].
  - destruct ((room =? 0) || (room <? length data))%nat; cbn; eauto 10.
  - cbn. eauto 10.
Qed.

Lemma send_status_frame (st : state) :
  services (fst (send_status localtime st)) = services st /\
  log (fst (send_status localtime st)) = log st /\
  (snd (send_status localtime st) = Ok tt \/
   exists e, snd (send_status localtime st) = Raise e /\ is_Exception e = true).
Proof.
  rewrite send_status_eq.
  destruct (build_response localtime (services st)) as [response|e] eqn:Hr.
  - destruct (sendall_frame (encode_response response) st)
      as (Hs & Hl & _ & [Hok | [errno Hraise]]).
    + auto.
    + repeat split; [assumption..|]. right. eauto.
  - cbn. repeat split. right. exists e. split; [reflexivity|].
    eapply render_error_is_Exception, build_response_raises, Hr.
Qed.

Lemma handle_eq (st : state) :
  handle localtime st =
  match send_status localtime st with
  | (st', Ok _) => (st', Ok tt)
  | (st', Raise e) =>
      (fst (logger_warning ("Error returning status: " +:+ exn_str e) st'), Ok tt)
  end.
Proof.
  unfold handle, warn_on_Exception, try_except.
  destruct (send_status_frame st) as (_ & _ & [Hok | (e & Hraise & He)]);
    destruct (send_status localtime st) as [st' [[]|e']]; cbn in *;
    try discriminate; try reflexivity.
  injection Hraise as ->. rewrite He. reflexivity.
Qed.

(** What a handler leaves of its connection depends on the snapshot and on
    the connection only. *)
Lemma handle_request (svcs : list service) (conn : connection)
    (records records' : list log_record) :
  request (fst (handle localtime
                  {| services := svcs; request := conn; log := records |})) =
  request (fst (handle localtime
                  {| services := svcs; request := conn; log := records' |})).
Proof.
  rewrite !handle_eq, !send_status_eq. cbn [services].
  destruct (build_response localtime svcs) as [response|e]; [|reflexivity].
  unfold sendall. cbn [request].
  destruct (fault conn) as [[room errno]|]; [|reflexivity].
  destruct ((room =? 0) || (room <? length (encode_response response)))%nat;
    reflexivity.
Qed.

End HandlerFacts.

Section Handler.

Import StatusSocketHandler.

Variable localtime : Z -> option datetime.

(** C2, as the code has it. For a snapshot with no service the list of
    lines is the one empty line, and joining it with newlines gives the
    empty text: the handler writes no byte at all, whatever the state of
    the connection, and logs nothing itself; on a connection with no fault
    the write returns. *)
Theorem empty_snapshot_report (conn : connection) (records : list log_record) :
  let st := {| services := []; request := conn; log := records |} in
  build_response localtime [] = Ok [""] /\
  render localtime [] = Ok [] /\
  sent (request (fst (send_status localtime st))) = sent conn /\
  log (fst (send_status localtime st)) = records /\
  (fault conn = None -> snd (send_status localtime st) = Ok tt).
Proof.
  intros st. split; [reflexivity|]. split; [reflexivity|].
  rewrite send_status_eq. subst st.
  cbn [services build_response for_each mbind result_bind].
  change (encode_response ([] ++ [""])) with (@nil byte).
  unfold sendall. cbn [request].
  destruct (fault conn) as [[room errno]|].
  - destruct ((room =? 0) || (room <? length (@nil byte)))%nat; cbn;
      rewrite ?take_nil, app_nil_r; repeat split; discriminate.
  - cbn. rewrite app_nil_r. repeat split.
Qed.

(** C7. Rendering leaves the snapshot as it was and logs nothing, and a
    second rendering of it, to a new connection, writes the same bytes and
    ends the same way as the first: the bytes are those of the report of the
    snapshot when there is one, and none when the renderer raises. *)
Theorem render_twice_identical (svcs : list service) (records : list log_record) :
  let st := {| services := svcs; request := fresh_connection; log := records |} in
  let first := send_status localtime st in
  let second := send_status localtime (set_request fresh_connection (fst first)) in
  services (fst first) = svcs /\
  services (fst second) = svcs /\
  log (fst second) = records /\
  snd second = snd first /\
  sent (request (fst second)) = sent (request (fst first)) /\
  match render localtime svcs with
  | Ok bytes => sent (request (fst first)) = bytes /\ snd first = Ok tt
  | Raise e => sent (request (fst first)) = [] /\ snd first = Raise e
  end.
Proof.
  intros st first second.
  assert (Hfirst : first =
    match build_response localtime svcs with
    | Ok response =>
        ({| services := svcs;
            request := {| sent := encode_response response; fault := None |};
            log := records |}, Ok tt)
    | Raise e => (st, Raise e)
    end).
  { unfold first. rewrite send_status_eq. cbn [services st].
    destruct (build_response localtime svcs); reflexivity. }
  assert (Hsecond : second =
    match build_response localtime svcs with
    | Ok response =>
        ({| services := svcs;
            request := {| sent := encode_response response; fault := None |};
            log := records |}, Ok tt)
    | Raise e => (st, Raise e)
    end).
  { unfold second. rewrite Hfirst, send_status_eq.
    destruct (build_response localtime svcs) eqn:Hr;
      cbn -[build_response]; rewrite Hr; reflexivity. }
  rewrite Hfirst, Hsecond. unfold render.
  destruct (build_response localtime svcs); cbn; repeat split.
Qed.

(** C8. A handler returns normally on every state: whatever the snapshot
    and whatever the connection does, [handle] raises nothing and leaves
    the snapshot as it was.  When [send_status] raised, while rendering or
    while writing, the exception is an [Exception] and the handler has
    logged one warning that names it; when it did not, the handler did what
    [send_status] did.  The [try] statement of [handle] does so for every
    [Exception] its body may raise, not only for those of this model of
    [send_status].  So the dispatch loop serves every accepted connection,
    and what each of them receives is what a handler alone would have sent
    it: no connection is affected by the faults of the others. *)
Theorem handle_never_raises (st : state) :
  snd (handle localtime st) = Ok tt /\
  services (fst (handle localtime st)) = services st /\
  (snd (send_status localtime st) = Ok tt ->
   fst (handle localtime st) = fst (send_status localtime st)) /\
  (forall e, snd (send_status localtime st) = Raise e ->
     is_Exception e = true /\
     fst (handle localtime st) =
       fst (logger_warning ("Error returning status: " +:+ exn_str e)
              (fst (send_status localtime st)))) /\
  (forall (body : M state unit) (st' : state) (e : exn),
     body st = (st', Raise e) -> is_Exception e = true ->
     warn_on_Exception body st =
       (fst (logger_warning ("Error returning status: " +:+ exn_str e) st'),
        Ok tt)) /\
  (forall accepted, exists served,
     snd (serve localtime accepted st) = Ok served /\
     Forall2 (fun conn out =>
                out = request (fst (handle localtime
                                      {| services := services st;
                                         request := conn; log := [] |})))
             accepted served).
Proof.
  assert (Hreturns : forall st', snd (handle localtime st') = Ok tt).
  { intros st'. rewrite handle_eq.
    destruct (send_status localtime st') as [? [[]|?]]; reflexivity. }
  assert (Hkeeps : forall st', services (fst (handle localtime st')) = services st').
  { intros st'. rewrite handle_eq.
    destruct (send_status_frame localtime st') as (Hs & _).
    destruct (send_status localtime st') as [? [[]|?]]; exact Hs. }
  split; [apply Hreturns|]. split; [apply Hkeeps|]. split; [|split; [|split]].
  - rewrite handle_eq. destruct (send_status localtime st) as [? [[]|?]];
      [reflexivity | discriminate].
  - intros e He. split.
    + destruct (send_status_frame localtime st) as (_ & _ & [Hok | (e' & He' & Hexc)]);
        congruence.
    + rewrite handle_eq. destruct (send_status localtime st) as [? [[]|?]];
        cbn in He; [discriminate|]. now injection He as ->.
  - intros body st' e Hbody He. unfold warn_on_Exception, try_except.
    rewrite Hbody. cbn [find fst snd]. rewrite He. reflexivity.
  - intros accepted. revert st.
    induction accepted as [|conn rest IH]; intros st.
    + exists []. split; [reflexivity | constructor].
    + pose (st1 := set_request conn st).
      destruct (IH (fst (handle localtime st1))) as (others & Hothers & Hall).
      exists (request (fst (handle localtime st1)) :: others). split.
      * cbn [serve]. unfold mbind, M_bind, modify, gets, mret, M_ret.
        fold st1. specialize (Hreturns st1).
        destruct (handle localtime st1) as [st2 r2]. cbn in Hreturns, Hothers |- *.
        subst r2. destruct (serve localtime rest st2) as [st3 r3].
        cbn in Hothers. now subst r3.
      * constructor.
        -- apply handle_request.
        -- rewrite Hkeeps in Hall. exact Hall.
Qed.

End Handler.

(** C2 as the specification states it fails: for the snapshot with no
    service the handler writes nothing to a new connection, where the
    specification has one newline byte. *)
Lemma empty_snapshot_writes_no_newline :
  render utc [] = Ok [] /\
  StatusSocketHandler.sent
    (StatusSocketHandler.request
       (fst (StatusSocketHandler.send_status utc
               {| StatusSocketHandler.services := [];
                  StatusSocketHandler.request := StatusSocketHandler.fresh_connection;
                  StatusSocketHandler.log := [] |}))) = [] /\
  render utc [] <> Ok [x0a].
Proof.
  split; [reflexivity|]. split; [reflexivity|]. discriminate.
Qed.

(** * The status socket *)

Section SocketFacts.

Import StatusSocket.

Context {W : Type} {os : OperatingSystem W}.

Lemma cleanup_socket_file_eq (st : state W) :
  cleanup_socket_file st =
  match unix_socket_filename st with
  | None => (st, Raise (AttributeError "unix_socket_filename"))
  | Some path =>
      match unlink path (world st) with
      | (w, None) => (set_world w st, Ok tt)
      | (w, Some errno) =>
          if (errno =? ENOENT)%Z then (set_world w st, Ok tt)
          else (set_world w st, Raise (OSError errno))
      end
  end.
Proof.
  unfold cleanup_socket_file, try_except, get_unix_socket_filename, os_unlink,
    mbind, M_bind.
  destruct (unix_socket_filename st) as [path|]; [|reflexivity].
  destruct (unlink path (world st)) as [w [errno|]]; [|reflexivity].
  cbn. destruct (errno =? ENOENT)%Z; reflexivity.
Qed.

Lemma close_eq (st : state W) :
  close st =
  match server st with
  | None => (st, Ok tt)
  | Some srv =>
      let st1 := set_server (closed srv) st in
      match unix_socket_filename st with
      | None => (st1, Ok tt)
      | Some path =>
          match unlink path (world st) with
          | (w, None) => (set_world w st1, Ok tt)
          | (w, Some errno) =>
              if (errno =? ENOENT)%Z then (set_world w st1, Ok tt)
              else emit ERROR "Error when removing the status socket" true
                     (set_world w st1)
          end
      end
  end.
Proof.
  unfold close, try_except, shutdown, server_close, get_server, modify,
    mbind, M_bind.
  destruct (server st) as [srv|] eqn:Hsrv; [|reflexivity].
  cbn [server set_server server_address listening serving].
  rewrite cleanup_socket_file_eq.
  cbn [unix_socket_filename set_server world].
  destruct (unix_socket_filename st) as [path|]; [|reflexivity].
  destruct (unlink path (world st)) as [w [errno|]]; [|reflexivity].
  destruct (errno =? ENOENT)%Z; reflexivity.
Qed.

Lemma status_socket_location_unbound :
  load_global "status_socket_location" = Raise (NameError "status_socket_location").
Proof. vm_compute. reflexivity. Qed.

Lemma init_eq (config : config_module) (st : state W) :
  __init__ config st =
  let path := STATUS_SOCKET_LOCATION config in
  let proceed (w : W) :=
    match bind_listen path w with
    | (w', None) => (set_server (started path) (announced path w' st), Ok tt)
    | (w', Some _) =>
        (announced path w' st, Raise (NameError "status_socket_location"))
    end in
  match unlink path (world st) with
  | (w, None) => proceed w
  | (w, Some errno) =>
      if (errno =? ENOENT)%Z then proceed w
      else (set_world w (set_unix_socket_filename path st), Raise (OSError errno))
  end.
Proof.
  unfold __init__. unfold mbind at 1. unfold M_bind at 1. unfold modify at 1.
  unfold mbind at 1. unfold M_bind at 1.
  rewrite cleanup_socket_file_eq.
  cbn [unix_socket_filename set_unix_socket_filename world].
  assert (Hproceed : forall w,
    (path ← get_unix_socket_filename;
     emit DEBUG ("Creating status socket at " +:+ path) false;;
     try_except
       (path0 ← get_unix_socket_filename;
        srv ← ThreadingSocketServer path0;
        modify (set_server srv);; start_server_thread)
       [(is_OSError,
         fun _ =>
           status_socket_location ← lift (load_global "status_socket_location");
           emit ERROR ("Could not start status socket at "
                         +:+ status_socket_location
                         +:+ ". Does the path exist? Do you have permission?")
                false)])
      (set_world w (set_unix_socket_filename (STATUS_SOCKET_LOCATION config) st))
    = match bind_listen (STATUS_SOCKET_LOCATION config) w with
      | (w', None) =>
          (set_server (started (STATUS_SOCKET_LOCATION config))
             (announced (STATUS_SOCKET_LOCATION config) w' st), Ok tt)
      | (w', Some _) =>
          (announced (STATUS_SOCKET_LOCATION config) w' st,
           Raise (NameError "status_socket_location"))
      end).
  { intros w.
    unfold try_except, get_unix_socket_filename, emit, modify, ThreadingSocketServer,
      start_server_thread, get_server, lift, mbind, M_bind.
    cbn [unix_socket_filename set_world set_unix_socket_filename world].
    destruct (bind_listen (STATUS_SOCKET_LOCATION config) w) as [w' [errno|]].
    - cbn. rewrite status_socket_location_unbound. reflexivity.
    - reflexivity. }
  cbv zeta.
  destruct (unlink (STATUS_SOCKET_LOCATION config) (world st)) as [w [errno|]].
  - destruct (errno =? ENOENT)%Z; [apply Hproceed | reflexivity].
  - apply Hproceed.
Qed.

End SocketFacts.

Section Socket.

Import StatusSocket.

Context {W : Type} {os : OperatingSystem W}.

(** C1 on the code. When the stale file is removed or was not there, and
    binding the socket at the configured path fails, [__init__] raises
    [NameError]: the handler of the [OSError] reads the name
    [status_socket_location], which is bound nowhere, before it can log.
    No error is logged (the log gains the debug record only) and no server
    is stored. *)
Theorem bind_failure_raises_NameError (config : config_module) (st : state W)
    (removed : option Z) (w w' : W) (errno : Z) :
  unlink (STATUS_SOCKET_LOCATION config) (world st) = (w, removed) ->
  removed = None \/ removed = Some ENOENT ->
  bind_listen (STATUS_SOCKET_LOCATION config) w = (w', Some errno) ->
  __init__ config st =
    ({| unix_socket_filename := Some (STATUS_SOCKET_LOCATION config);
        server := server st;
        world := w';
        log := log st ++
               [{| levelname := DEBUG;
                   message := "Creating status socket at "
                                +:+ STATUS_SOCKET_LOCATION config;
                   exc_info := false |}] |},
     Raise (NameError "status_socket_location")).
Proof.
  intros Hunlink Hremoved Hbind. rewrite init_eq. cbv zeta.
  rewrite Hunlink. destruct Hremoved as [-> | ->]; cbn [Z.eqb ENOENT Pos.eqb];
    rewrite Hbind; reflexivity.
Qed.

(** C9. With the path of the configuration stored in [self], when removing
    the file at that path fails with [ENOENT], [cleanup_socket_file]
    returns normally and [__init__] goes on to bind the socket; when it
    fails with any other [errno], [cleanup_socket_file] raises that
    [OSError] again and [__init__] ends with it, before anything is logged
    or bound. *)
Theorem stale_socket_file_removal (config : config_module) (st : state W)
    (w : W) (errno : Z) :
  unlink (STATUS_SOCKET_LOCATION config) (world st) = (w, Some errno) ->
  let path := STATUS_SOCKET_LOCATION config in
  let named := set_unix_socket_filename path st in
  (errno = ENOENT ->
   cleanup_socket_file named = (set_world w named, Ok tt) /\
   world (fst (__init__ config st)) = fst (bind_listen path w)) /\
  (errno <> ENOENT ->
   cleanup_socket_file named = (set_world w named, Raise (OSError errno)) /\
   __init__ config st = (set_world w named, Raise (OSError errno))).
Proof.
  intros Hunlink path named. split.
  - intros ->. split.
    + rewrite cleanup_socket_file_eq. subst named path.
      cbn [unix_socket_filename set_unix_socket_filename world].
      rewrite Hunlink. reflexivity.
    + rewrite init_eq. cbv zeta. rewrite Hunlink. cbn [Z.eqb ENOENT Pos.eqb].
      fold path. destruct (bind_listen path w) as [w' [e|]]; reflexivity.
  - intros Hother. apply Z.eqb_neq in Hother. split.
    + rewrite cleanup_socket_file_eq. subst named path.
      cbn [unix_socket_filename set_unix_socket_filename world].
      rewrite Hunlink, Hother. reflexivity.
    + rewrite init_eq. cbv zeta. rewrite Hunlink, Hother. reflexivity.
Qed.

(** C10. [close] returns normally on every state of the object and of the
    operating system, hence also when it is called again after a first
    call.  When the server was never stored (binding failed), it does
    nothing.  Otherwise the server stops serving and its socket is closed;
    when removing the socket file fails with an [errno] other than
    [ENOENT], one error with the traceback is logged and nothing is
    raised; when the file is removed or already gone, nothing is logged. *)
Theorem close_never_raises (st : state W) :
  snd (close st) = Ok tt /\
  snd (close (fst (close st))) = Ok tt /\
  (server st = None -> close st = (st, Ok tt)) /\
  (forall srv path w outcome,
     server st = Some srv ->
     unix_socket_filename st = Some path ->
     unlink path (world st) = (w, outcome) ->
     server (fst (close st)) = Some (closed srv) /\
     world (fst (close st)) = w /\
     log (fst (close st)) =
       match outcome with
       | Some errno =>
           if (errno =? ENOENT)%Z then log st
           else log st ++
                [{| levelname := ERROR;
                    message := "Error when removing the status socket";
                    exc_info := true |}]
       | None => log st
       end).
Proof.
  assert (Hreturns : forall st' : state W, snd (close st') = Ok tt).
  { intros st'. rewrite close_eq.
    destruct (server st') as [srv|]; [|reflexivity]. cbv zeta.
    destruct (unix_socket_filename st') as [path|]; [|reflexivity].
    destruct (unlink path (world st')) as [w [errno|]]; [|reflexivity].
    destruct (errno =? ENOENT)%Z; reflexivity. }
  split; [apply Hreturns|]. split; [apply Hreturns|]. split.
  - intros Hnone. rewrite close_eq, Hnone. reflexivity.
  - intros srv path w outcome Hsrv Hpath Hunlink.
    rewrite close_eq, Hsrv. cbv zeta. rewrite Hpath, Hunlink.
    destruct outcome as [errno|]; [|repeat split].
    destruct (errno =? ENOENT)%Z; repeat split.
Qed.

End Socket.

(** C1 on the code, where the directory of the socket does not exist. *)
Lemma missing_directory_raises_NameError :
  StatusSocket.__init__ default_config no_directory =
    ({| StatusSocket.unix_socket_filename := Some "/var/run/onionbalance/control";
        StatusSocket.server := None;
        StatusSocket.world := {| nodes := ∅; bindable := ∅ |};
        StatusSocket.log :=
          [{| levelname := DEBUG;
              message := "Creating status socket at /var/run/onionbalance/control";
              exc_info := false |}] |},
     Raise (NameError "status_socket_location")).
Proof.
  apply (bind_failure_raises_NameError default_config no_directory
           (Some ENOENT) {| nodes := ∅; bindable := ∅ |}
           {| nodes := ∅; bindable := ∅ |} ENOENT).
  - reflexivity.
  - right. reflexivity.
  - reflexivity.
Defined.

(** C9 where the stale socket file cannot be removed: permission denied. *)
Lemma stale_socket_file_removal_denied :
  let path := STATUS_SOCKET_LOCATION default_config in
  let named := StatusSocket.set_unix_socket_filename path pinned_file in
  let w := StatusSocket.world pinned_file in
  (EACCES = ENOENT ->
   StatusSocket.cleanup_socket_file named = (StatusSocket.set_world w named, Ok tt) /\
   StatusSocket.world (fst (StatusSocket.__init__ default_config pinned_file))
     = fst (bind_listen path w)) /\
  (EACCES <> ENOENT ->
   StatusSocket.cleanup_socket_file named
     = (StatusSocket.set_world w named, Raise (OSError EACCES)) /\
   StatusSocket.__init__ default_config pinned_file
     = (StatusSocket.set_world w named, Raise (OSError EACCES))).
Proof.
  apply (stale_socket_file_removal default_config pinned_file
           (StatusSocket.world pinned_file) EACCES).
  reflexivity.
Defined.

(** * More about the report *)

Lemma for_each_app {A S : Type} (body : S -> A -> result S) :
  forall (l1 l2 : list A) (acc : S),
    for_each body acc (l1 ++ l2) =
    (mid ← for_each body acc l1; for_each body mid l2).
Proof.
  induction l1 as [|x l1 IH]; intros l2 acc; [reflexivity|].
  simpl. destruct (body acc x) as [mid|e]; cbn [mbind result_bind];
    [apply IH | reflexivity].
Qed.

Lemma forallb_false_elem {A : Type} (f : A -> bool) (l : list A) :
  forallb f l = false <-> exists x, x ∈ l /\ f x = false.
Proof.
  induction l as [|y l IH]; simpl.
  - split; [discriminate | intros (x & Hx & _); inversion Hx].
  - rewrite andb_false_iff, IH. split.
    + intros [Hy | (x & Hx & Hfx)].
      * exists y. split; [constructor | assumption].
      * exists x. split; [now constructor | assumption].
    + intros (x & Hx & Hfx). inversion Hx; subst; eauto.
Qed.

Lemma list_ascii_of_string_app (s t : string) :
  String.list_ascii_of_string (s +:+ t) =
  String.list_ascii_of_string s ++ String.list_ascii_of_string t.
Proof.
  induction s as [|c s IH]; [reflexivity|].
  change (c :: String.list_ascii_of_string (s +:+ t) =
          c :: (String.list_ascii_of_string s ++ String.list_ascii_of_string t)).
  now rewrite IH.
Qed.

Lemma list_byte_of_string_app (s t : string) :
  String.list_byte_of_string (s +:+ t) =
  String.list_byte_of_string s ++ String.list_byte_of_string t.
Proof.
  unfold String.list_byte_of_string.
  now rewrite list_ascii_of_string_app, map_app.
Qed.

Lemma concat_newline_closed (lines : list string) :
  String.concat newline (lines ++ [""]) =
  fold_right (fun line rest => line +:+ newline +:+ rest) "" lines.
Proof.
  induction lines as [|line lines IH]; [reflexivity|].
  simpl fold_right. rewrite <- IH.
  destruct lines; reflexivity.
Qed.

(** Joining lines and the closing empty line ends every line by a newline. *)
Lemma encode_response_closed (lines : list string) :
  encode_response (lines ++ [""]) = terminated lines.
Proof.
  unfold encode_response, terminated. rewrite concat_newline_closed.
  induction lines as [|line lines IH]; [reflexivity|].
  simpl. rewrite list_byte_of_string_app, list_byte_of_string_app, IH.
  now rewrite <- app_assoc.
Qed.

Section MoreRendererFacts.

Variable localtime : Z -> option datetime.

Lemma render_instances_prefixed (healthcheck : bool) (lines : list string) :
  forall (l : list instance) (response : list string),
    for_each (render_instance localtime healthcheck) (lines ++ response) l =
    prefixed lines (for_each (render_instance localtime healthcheck) response l).
Proof.
  induction l as [|inst rest IH]; intros response; [reflexivity|].
  simpl. rewrite !render_instance_eq.
  destruct (health_suffix localtime healthcheck inst) as [suffix|e];
    cbn [mbind result_bind]; [|reflexivity].
  rewrite <- app_assoc. apply IH.
Qed.

Lemma render_services_prefixed (lines : list string) :
  forall (l : list service) (response : list string),
    for_each (render_service localtime) (lines ++ response) l =
    prefixed lines (for_each (render_service localtime) response l).
Proof.
  induction l as [|svc rest IH]; intros response; [reflexivity|].
  simpl.
  assert (Hsvc : render_service localtime (lines ++ response) svc =
                 prefixed lines (render_service localtime response svc)).
  { unfold render_service.
    destruct (getitem (health_check_conf svc) "type") as [kind|e];
      cbn [mbind result_bind]; [|reflexivity].
    rewrite <- app_assoc. apply render_instances_prefixed. }
  rewrite Hsvc.
  destruct (render_service localtime response svc) as [mid|e];
    cbn [prefixed mbind result_bind]; [apply IH | reflexivity].
Qed.

(** The loop over the services and the report it is closed into. *)
Lemma build_response_loop (services : list service) :
  build_response localtime services =
  match for_each (render_service localtime) [] services with
  | Ok lines => Ok (lines ++ [""])
  | Raise e => Raise e
  end.
Proof. reflexivity. Qed.

Lemma render_services_app (l1 l2 : list service) :
  for_each (render_service localtime) [] (l1 ++ l2) =
  match for_each (render_service localtime) [] l1 with
  | Ok lines1 => prefixed lines1 (for_each (render_service localtime) [] l2)
  | Raise e => Raise e
  end.
Proof.
  rewrite for_each_app.
  destruct (for_each (render_service localtime) [] l1) as [lines1|e];
    cbn [mbind result_bind]; [|reflexivity].
  rewrite <- (app_nil_r lines1) at 1. apply render_services_prefixed.
Qed.

End MoreRendererFacts.

Section MoreReport.

Variable localtime : Z -> option datetime.

(** X1. In the report of a snapshot the renderer accepts, the line of an
    instance that has a last-refresh time is two spaces, its onion address,
    [.onion], the fields of that time as they are stored (the year in
    decimal, then month, day, hour, minute and second on two digits), the
    number of its introduction points in decimal and [ IPs], followed by
    its health suffix.  For a valid time of a year from 1000 on the time has
    the shape [YYYY-MM-DD HH:MM:SS]. *)
Theorem online_instance_line (before after : list service) (svc : service)
    (ibefore iafter : list instance) (inst : instance) (refreshed : datetime) :
  instances svc = ibefore ++ inst :: iafter ->
  timestamp inst = Some refreshed ->
  renderable localtime (before ++ svc :: after) = true ->
  exists response kind suffix stamp,
    build_response localtime (before ++ svc :: after) = Ok response /\
    health_check_conf svc !! "type" = Some kind /\
    health_suffix localtime (is_not_None kind) inst = Ok suffix /\
    response !! (line_count before + 1 + length ibefore) =
      Some ("  " +:+ instance_onion_address inst +:+ ".onion "
            +:+ stamp +:+ " "
            +:+ decimal (Z.of_nat (length (introduction_points inst)))
            +:+ " IPs" +:+ suffix) /\
    stamp =
      decimal (year refreshed) +:+ "-"
      +:+ zfill 2 (decimal (month refreshed)) +:+ "-"
      +:+ zfill 2 (decimal (day refreshed)) +:+ " "
      +:+ zfill 2 (decimal (hour refreshed)) +:+ ":"
      +:+ zfill 2 (decimal (minute refreshed)) +:+ ":"
      +:+ zfill 2 (decimal (second refreshed)) /\
    (valid_datetime refreshed = true -> (1000 <= year refreshed)%Z ->
     is_date_time stamp = true).
Proof.
  intros Hinst Honline Hok.
  apply build_response_ok in Hok as [response Hresponse].
  destruct (located_instance localtime _ _ _ _ _ _ _ Hinst Hresponse)
    as (kind & suffix & Hkind & Hsuffix & Hline).
  unfold instance_line in Hline. rewrite Honline in Hline.
  rewrite !string_app_assoc in Hline.
  exists response, kind, suffix, (strftime refreshed time_format).
  split; [assumption|]. split; [assumption|]. split; [assumption|].
  split; [assumption|].
  split; [apply strftime_time_format | apply strftime_is_date_time].
Qed.

(** X2. The services of a snapshot are rendered independently of each
    other: the report of two snapshots put one after the other is the
    report of the first without its closing empty line, followed by the
    report of the second, and its bytes are the bytes of the first followed
    by those of the second.  When the renderer raises on one of them it
    raises the same exception on both together, the first one's if both
    raise. *)
Theorem report_of_concatenation (l1 l2 : list service) :
  build_response localtime (l1 ++ l2) =
    match build_response localtime l1, build_response localtime l2 with
    | Ok r1, Ok r2 => Ok (removelast r1 ++ r2)
    | Ok _, Raise e => Raise e
    | Raise e, _ => Raise e
    end /\
  render localtime (l1 ++ l2) =
    match render localtime l1, render localtime l2 with
    | Ok b1, Ok b2 => Ok (b1 ++ b2)
    | Ok _, Raise e => Raise e
    | Raise e, _ => Raise e
    end.
Proof.
  unfold render. rewrite !build_response_loop, render_services_app.
  destruct (for_each (render_service localtime) [] l1) as [lines1|e1];
    [|split; reflexivity].
  destruct (for_each (render_service localtime) [] l2) as [lines2|e2];
    cbn [prefixed mbind result_bind]; [|split; reflexivity].
  split.
  - rewrite removelast_last, <- app_assoc. reflexivity.
  - rewrite !encode_response_closed. unfold terminated.
    now rewrite flat_map_app.
Qed.

(** X3. On a snapshot the renderer accepts, the report is one line for each
    service and each instance and the closing empty line, and the bytes
    written are the lines before the closing one, each followed by one
    newline byte; when the snapshot has a service, the last byte is a
    newline. *)
Theorem report_lines_end_in_newline (services : list service) :
  renderable localtime services = true ->
  exists lines,
    build_response localtime services = Ok (lines ++ [""]) /\
    length lines = line_count services /\
    render localtime services = Ok (terminated lines) /\
    (services <> [] -> last (terminated lines) = Some x0a).
Proof.
  intros Hok. apply build_response_ok in Hok as [response Hresponse].
  destruct (build_response_inv localtime _ _ Hresponse) as (blocks & -> & Hblocks).
  exists (concat blocks). split; [assumption|].
  pose proof (rendered_line_count localtime _ _ Hblocks) as Hlen.
  split; [assumption|]. split.
  - unfold render. rewrite Hresponse. cbn [mbind result_bind].
    now rewrite encode_response_closed.
  - intros Hsome.
    destruct (concat blocks) as [|first rest] eqn:Hlines using rev_ind.
    + destruct services; [congruence | discriminate Hlen].
    + unfold terminated. rewrite flat_map_app. simpl.
      rewrite app_nil_r, !app_assoc. apply last_snoc.
Qed.

(** X4. The renderer raises exactly when some service of the snapshot has
    no key [type] in its health-check configuration, or has a health-check
    kind that is not [None] and an instance whose health status is known
    while the time of its last check is [None] or is one the platform
    cannot convert to local time. *)
Theorem renderer_raises_iff (services : list service) :
  (exists e, build_response localtime services = Raise e) <->
  exists svc, svc ∈ services /\
    (health_check_conf svc !! "type" = None \/
     exists kind inst,
       health_check_conf svc !! "type" = Some (Some kind) /\
       inst ∈ instances svc /\
       is_healthy inst <> None /\
       (last_check_time inst = None \/
        exists secs, last_check_time inst = Some secs /\ localtime secs = None)).
Proof.
  assert (Hfaulty : forall inst,
    instance_renderable localtime true inst = false <->
    is_healthy inst <> None /\
    (last_check_time inst = None \/
     exists secs, last_check_time inst = Some secs /\ localtime secs = None)).
  { intros inst. unfold instance_renderable. cbn [negb orb].
    destruct (is_healthy inst) as [b|].
    - destruct (last_check_time inst) as [secs|].
      + destruct (localtime secs) as [dt|] eqn:Hdt; cbn [is_not_None].
        * split; [discriminate|].
          intros (_ & [Hnone | (secs' & Hsecs & Hnone)]); [discriminate|].
          injection Hsecs as <-. congruence.
        * split; [|reflexivity]. intros _. split; [discriminate|].
          right. eauto.
      + split; [|reflexivity]. intros _. split; [discriminate | now left].
    - split; [discriminate | intros [Hknown _]; now contradict Hknown]. }
  assert (Hservice : forall svc,
    service_renderable localtime svc = false <->
    (health_check_conf svc !! "type" = None \/
     exists kind inst,
       health_check_conf svc !! "type" = Some (Some kind) /\
       inst ∈ instances svc /\
       is_healthy inst <> None /\
       (last_check_time inst = None \/
        exists secs, last_check_time inst = Some secs /\ localtime secs = None))).
  { intros svc. unfold service_renderable.
    destruct (health_check_conf svc !! "type") as [[kind|]|]; cbn [is_not_None].
    - rewrite forallb_false_elem. split.
      + intros (inst & Hin & Hbad). right. exists kind, inst.
        apply Hfaulty in Hbad. tauto.
      + intros [Hnone | (kind' & inst & _ & Hin & Hbad)]; [discriminate|].
        exists inst. split; [assumption|]. now apply Hfaulty.
    - split.
      + intros Hall. exfalso.
        assert (forallb (instance_renderable localtime false) (instances svc) = true)
          by (apply forallb_forall; reflexivity).
        congruence.
      + intros [Hnone | (kind' & inst & Hkind & _)]; discriminate.
    - split; [now left | reflexivity]. }
  destruct (renderable localtime services) eqn:Hok.
  - split.
    + intros [e He]. apply build_response_ok in Hok as [response Hr]. congruence.
    + intros (svc & Hin & Hbad). exfalso.
      unfold renderable in Hok. rewrite forallb_forall in Hok.
      apply list_elem_of_In, Hok in Hin. apply Hservice in Hbad. congruence.
  - split.
    + intros _. unfold renderable in Hok.
      apply forallb_false_elem in Hok as (svc & Hin & Hbad).
      exists svc. split; [assumption|]. now apply Hservice.
    + intros _. destruct (build_response localtime services) as [response|e] eqn:Hr.
      * assert (renderable localtime services = true)
          by (apply build_response_ok; eauto).
        congruence.
      * eauto.
Qed.

End MoreReport.

Section RenderFaults.

Import StatusSocketHandler.

Variable localtime : Z -> option datetime.

(** X5. When the services before it are rendered and the health-check
    configuration of a service has no key [type], the renderer raises
    [KeyError] for that key, whatever the instances of the service and the
    services after it are. *)
Theorem missing_type_raises_KeyError (before after : list service) (svc : service) :
  renderable localtime before = true ->
  health_check_conf svc !! "type" = None ->
  build_response localtime (before ++ svc :: after) = Raise (KeyError "type").
Proof.
  intros Hbefore Hmissing.
  rewrite build_response_loop, for_each_app.
  destruct (render_services_ok localtime before [] Hbefore) as [lines ->].
  cbn [mbind result_bind for_each]. unfold render_service, getitem.
  rewrite Hmissing. reflexivity.
Qed.

(** X6. When everything before it is rendered, an instance whose health
    status is known, in a service whose health-check kind is not [None],
    makes the renderer raise if the time of its last check cannot be
    converted: [TypeError] when that time is [None], and otherwise the
    exception of the failed conversion, which is a [ValueError], an
    [OverflowError] or an [OSError]. *)
Theorem unconvertible_check_time_raises (before after : list service)
    (svc : service) (kind : string) (ibefore iafter : list instance)
    (inst : instance) :
  renderable localtime before = true ->
  health_check_conf svc !! "type" = Some (Some kind) ->
  instances svc = ibefore ++ inst :: iafter ->
  forallb (instance_renderable localtime true) ibefore = true ->
  is_healthy inst <> None ->
  match last_check_time inst with
  | None => True
  | Some secs => localtime secs = None
  end ->
  exists e,
    build_response localtime (before ++ svc :: after) = Raise e /\
    match last_check_time inst with
    | None => e = TypeError
    | Some _ =>
        e = ValueError \/ e = OverflowError \/ exists errno, e = OSError errno
    end.
Proof.
  intros Hbefore Hkind Hinst Hibefore Hknown Htime.
  rewrite build_response_loop, for_each_app.
  destruct (render_services_ok localtime before [] Hbefore) as [lines ->].
  cbn [mbind result_bind for_each]. unfold render_service, getitem.
  rewrite Hkind, Hinst. cbn [mbind result_bind is_not_None].
  rewrite for_each_app.
  destruct (render_instances_ok localtime true ibefore
              (lines ++ [service_onion_address svc +:+ ".onion " +:+
                         match uploaded svc with
                         | Some up => strftime up time_format
                         | None => "[not uploaded]"
                         end]) Hibefore) as [mid ->].
  cbn [mbind result_bind for_each]. rewrite render_instance_eq.
  unfold health_suffix, fromtimestamp.
  assert (Hclass : forall secs,
            conversion_failure secs = ValueError \/
            conversion_failure secs = OverflowError \/
            exists errno, conversion_failure secs = OSError errno).
  { intros secs. destruct (conversion_failure_cases secs) as [-> | [-> | ->]];
      eauto. }
  destruct (is_healthy inst) as [[|]|]; [| |now contradict Hknown];
    (destruct (last_check_time inst) as [secs|];
     [rewrite Htime; exists (conversion_failure secs); split;
        [reflexivity | apply Hclass]
     | exists TypeError; split; reflexivity]).
Qed.

(** X7. When the renderer raises, the handler writes nothing to the
    client: the connection is left as it was, one warning that names the
    exception is logged, and the handler returns. *)
Theorem render_fault_writes_nothing (st : state) (e : exn) :
  build_response localtime (services st) = Raise e ->
  handle localtime st =
    ({| services := services st;
        request := request st;
        log := log st ++ [{| levelname := WARNING;
                             message := "Error returning status: " +:+ exn_str e;
                             exc_info := true |}] |},
     Ok tt).
Proof.
  intros Hraise.
  pose proof (build_response_raises localtime _ _ Hraise) as Herror.
  apply render_error_is_Exception in Herror.
  unfold handle, warn_on_Exception, try_except.
  rewrite send_status_eq, Hraise. cbn [find fst snd]. rewrite Herror.
  reflexivity.
Qed.

End RenderFaults.

(** X1 at the second instance of the second service, in UTC. *)
Lemma online_instance_line_utc :
  exists response kind suffix stamp,
    build_response utc
      ([new_service] ++ abc_service [offline_instance; online_instance] :: [])
      = Ok response /\
    health_check_conf (abc_service [offline_instance; online_instance]) !! "type"
      = Some kind /\
    health_suffix utc (is_not_None kind) online_instance = Ok suffix /\
    response !! (line_count [new_service] + 1 + length [offline_instance]) =
      Some ("  " +:+ instance_onion_address online_instance +:+ ".onion "
            +:+ stamp +:+ " "
            +:+ decimal (Z.of_nat (length (introduction_points online_instance)))
            +:+ " IPs" +:+ suffix) /\
    stamp =
      decimal (year refreshed_at) +:+ "-"
      +:+ zfill 2 (decimal (month refreshed_at)) +:+ "-"
      +:+ zfill 2 (decimal (day refreshed_at)) +:+ " "
      +:+ zfill 2 (decimal (hour refreshed_at)) +:+ ":"
      +:+ zfill 2 (decimal (minute refreshed_at)) +:+ ":"
      +:+ zfill 2 (decimal (second refreshed_at)) /\
    (valid_datetime refreshed_at = true -> (1000 <= year refreshed_at)%Z ->
     is_date_time stamp = true).
Proof.
  apply (online_instance_line utc [new_service] []
           (abc_service [offline_instance; online_instance])
           [offline_instance] [] online_instance refreshed_at).
  - reflexivity.
  - reflexivity.
  - vm_compute. reflexivity.
Defined.

(** X3 on a snapshot of two services, in UTC. *)
Lemma report_lines_end_in_newline_utc :
  exists lines,
    build_response utc [new_service; abc_service [online_instance]]
      = Ok (lines ++ [""]) /\
    length lines = line_count [new_service; abc_service [online_instance]] /\
    render utc [new_service; abc_service [online_instance]]
      = Ok (terminated lines) /\
    ([new_service; abc_service [online_instance]] <> [] ->
     last (terminated lines) = Some x0a).
Proof.
  apply (report_lines_end_in_newline utc
           [new_service; abc_service [online_instance]]).
  vm_compute. reflexivity.
Defined.

(** X5 where a service with no key [type] stands between two others. *)
Lemma missing_type_raises_KeyError_utc :
  build_response utc
    ([new_service] ++ untyped_service :: [abc_service [online_instance]])
    = Raise (KeyError "type").
Proof.
  apply (missing_type_raises_KeyError utc [new_service]
           [abc_service [online_instance]] untyped_service).
  - vm_compute. reflexivity.
  - reflexivity.
Defined.

(** X6 where the time of the check of the second instance is [None]. *)
Lemma unconvertible_check_time_raises_utc :
  exists e,
    build_response utc
      ([new_service] ++ abc_service [online_instance; unchecked_instance] :: [])
      = Raise e /\
    match last_check_time unchecked_instance with
    | None => e = TypeError
    | Some _ =>
        e = ValueError \/ e = OverflowError \/ exists errno, e = OSError errno
    end.
Proof.
  apply (unconvertible_check_time_raises utc [new_service] []
           (abc_service [online_instance; unchecked_instance]) "tcp"
           [online_instance] [] unchecked_instance).
  - vm_compute. reflexivity.
  - reflexivity.
  - reflexivity.
  - vm_compute. reflexivity.
  - discriminate.
  - exact I.
Defined.

(** X7 on a connection that already carries bytes, for a snapshot with a
    service that has no key [type]. *)
Lemma render_fault_writes_nothing_utc :
  StatusSocketHandler.handle utc
    {| StatusSocketHandler.services := [untyped_service];
       StatusSocketHandler.request :=
         {| StatusSocketHandler.sent := [x61];
            StatusSocketHandler.fault := None |};
       StatusSocketHandler.log := [] |} =
    ({| StatusSocketHandler.services := [untyped_service];
        StatusSocketHandler.request :=
          {| StatusSocketHandler.sent := [x61];
             StatusSocketHandler.fault := None |};
        StatusSocketHandler.log :=
          [] ++ [{| levelname := WARNING;
                    message := "Error returning status: "
                                 +:+ exn_str (KeyError "type");
                    exc_info := true |}] |},
     Ok tt).
Proof.
  apply (render_fault_writes_nothing utc
           {| StatusSocketHandler.services := [untyped_service];
              StatusSocketHandler.request :=
                {| StatusSocketHandler.sent := [x61];
                   StatusSocketHandler.fault := None |};
              StatusSocketHandler.log := [] |}
           (KeyError "type")).
  reflexivity.
Defined.

Section WriteFaults.

Import StatusSocketHandler.

Variable localtime : Z -> option datetime.

(** X8. When the renderer returns a report, what the handler adds to the
    bytes of the connection is a prefix of the bytes of the report, and the
    handler returns.  On a connection with no fault it is all of them, with
    nothing logged.  In general either the write did not fail, all the
    bytes are written and nothing is logged, or it failed, on a peer that
    was gone or that took fewer bytes than the report has: then the bytes
    the peer still took are written and one warning that names the
    [OSError] of the write is logged. *)
Theorem client_receives_prefix (st : state) (bytes : list byte) :
  render localtime (services st) = Ok bytes ->
  exists written,
    sent (request (fst (handle localtime st))) = sent (request st) ++ written /\
    written `prefix_of` bytes /\
    snd (handle localtime st) = Ok tt /\
    (fault (request st) = None ->
     written = bytes /\ log (fst (handle localtime st)) = log st) /\
    (written = bytes /\ log (fst (handle localtime st)) = log st \/
     exists errno,
       fault (request st) = Some (length written, errno) /\
       (length written = 0 \/ length written < length bytes) /\
       log (fst (handle localtime st)) =
         log st ++ [{| levelname := WARNING;
                       message := "Error returning status: "
                                    +:+ exn_str (OSError errno);
                       exc_info := true |}]).
Proof.
  unfold render. intros Hrender.
  destruct (build_response localtime (services st)) as [response|e] eqn:Hr;
    cbn [mbind result_bind] in Hrender; [|discriminate].
  injection Hrender as <-.
  rewrite handle_eq, send_status_eq, Hr. unfold sendall.
  destruct (fault (request st)) as [[room errno]|] eqn:Hfault.
  - destruct ((room =? 0) || (room <? length (encode_response response)))%nat
      eqn:Hroom.
    + assert (Hlen : length (take room (encode_response response)) = room).
      { rewrite length_take. apply orb_true_iff in Hroom as [Hzero | Hless].
        - apply Nat.eqb_eq in Hzero. lia.
        - apply Nat.ltb_lt in Hless. lia. }
      exists (take room (encode_response response)). cbn.
      split; [reflexivity|]. split; [apply prefix_take|].
      split; [reflexivity|]. split; [discriminate|].
      right. exists errno. rewrite Hlen.
      split; [reflexivity|]. split; [|reflexivity].
      apply orb_true_iff in Hroom as [Hzero | Hless].
      * left. now apply Nat.eqb_eq.
      * right. now apply Nat.ltb_lt.
    + exists (encode_response response). cbn.
      split; [reflexivity|]. split; [reflexivity|]. split; [reflexivity|].
      split; [discriminate | now left].
  - exists (encode_response response). cbn.
    split; [reflexivity|]. split; [reflexivity|]. split; [reflexivity|].
    split; [intros _; split; reflexivity | now left].
Qed.

End WriteFaults.

(** X8 where the peer goes away after ten bytes of the report. *)
Lemma client_receives_prefix_utc :
  let st :=
    {| StatusSocketHandler.services := [abc_service [online_instance]];
       StatusSocketHandler.request :=
         {| StatusSocketHandler.sent := [];
            StatusSocketHandler.fault := Some (10, EPIPE) |};
       StatusSocketHandler.log := [] |} in
  let bytes :=
    String.list_byte_of_string
      ("abc.onion 2016-05-01 11:08:56" +:+ newline +:+
       "  def.onion 2016-05-01 11:00:00 3 IPs [up at 11:05:02]" +:+ newline) in
  exists written,
    StatusSocketHandler.sent
      (StatusSocketHandler.request (fst (StatusSocketHandler.handle utc st)))
      = StatusSocketHandler.sent (StatusSocketHandler.request st) ++ written /\
    written `prefix_of` bytes /\
    snd (StatusSocketHandler.handle utc st) = Ok tt /\
    (StatusSocketHandler.fault (StatusSocketHandler.request st) = None ->
     written = bytes /\
     StatusSocketHandler.log (fst (StatusSocketHandler.handle utc st))
       = StatusSocketHandler.log st) /\
    (written = bytes /\
     StatusSocketHandler.log (fst (StatusSocketHandler.handle utc st))
       = StatusSocketHandler.log st \/
     exists errno,
       StatusSocketHandler.fault (StatusSocketHandler.request st)
         = Some (length written, errno) /\
       (length written = 0 \/ length written < length bytes) /\
       StatusSocketHandler.log (fst (StatusSocketHandler.handle utc st)) =
         StatusSocketHandler.log st ++
         [{| levelname := WARNING;
             message := "Error returning status: " +:+ exn_str (OSError errno);
             exc_info := true |}]).
Proof.
  apply (client_receives_prefix utc
           {| StatusSocketHandler.services := [abc_service [online_instance]];
              StatusSocketHandler.request :=
                {| StatusSocketHandler.sent := [];
                   StatusSocketHandler.fault := Some (10, EPIPE) |};
              StatusSocketHandler.log := [] |}).
  vm_compute. reflexivity.
Defined.

(** * More about the status socket *)

Section MoreSocket.

Import StatusSocket.

Context {W : Type} {os : OperatingSystem W}.


(** X10. After a construction that succeeded, [close] returns, leaves the
    server not serving and not listening, and asks the operating system to
    remove the file at the very path the socket was bound to; an error is
    logged only when that removal fails with an [errno] other than
    [ENOENT]. *)
Theorem construct_then_close (config : config_module) (st : state W)
    (removed outcome : option Z) (w w' w'' : W) :
  unlink (STATUS_SOCKET_LOCATION config) (world st) = (w, removed) ->
  removed = None \/ removed = Some ENOENT ->
  bind_listen (STATUS_SOCKET_LOCATION config) w = (w', None) ->
  unlink (STATUS_SOCKET_LOCATION config) w' = (w'', outcome) ->
  let built := fst (__init__ config st) in
  snd (close built) = Ok tt /\
  unix_socket_filename (fst (close built)) = Some (STATUS_SOCKET_LOCATION config) /\
  server (fst (close built)) =
    Some {| server_address := STATUS_SOCKET_LOCATION config;
            listening := false; serving := false |} /\
  world (fst (close built)) = w'' /\
  log (fst (close built)) =
    log built ++
    match outcome with
    | Some errno =>
        if (errno =? ENOENT)%Z then []
        else [{| levelname := ERROR;
                 message := "Error when removing the status socket";
                 exc_info := true |}]
    | None => []
    end.
Proof.
  intros Hunlink Hremoved Hbind Hagain built.
  assert (Hbuilt : built =
    set_server (started (STATUS_SOCKET_LOCATION config))
      (announced (STATUS_SOCKET_LOCATION config) w' st)).
  { unfold built. rewrite init_eq. cbv zeta. rewrite Hunlink.
    destruct Hremoved as [-> | ->]; cbn [Z.eqb ENOENT Pos.eqb];
      rewrite Hbind; reflexivity. }
  rewrite Hbuilt, close_eq.
  cbn [server set_server unix_socket_filename announced world].
  rewrite Hagain.
  destruct outcome as [errno|]; [destruct (errno =? ENOENT)%Z|];
    cbn; rewrite ?app_nil_r; repeat split.
Qed.


(** X12. [cleanup_socket_file] changes nothing but the file system: the
    attributes of [self] and the log stay as they were.  It returns, or
    raises [AttributeError] when no path is stored (and then leaves the
    file system alone), or raises an [OSError] whose [errno] is not
    [ENOENT]. *)
Theorem cleanup_socket_file_frame (st : state W) :
  let out := cleanup_socket_file st in
  unix_socket_filename (fst out) = unix_socket_filename st /\
  server (fst out) = server st /\
  log (fst out) = log st /\
  (snd out = Ok tt
   \/
   unix_socket_filename st = None /\
   out = (st, Raise (AttributeError "unix_socket_filename"))
   \/
   exists path errno,
     unix_socket_filename st = Some path /\
     snd (unlink path (world st)) = Some errno /\
     errno <> ENOENT /\ snd out = Raise (OSError errno)).
Proof.
  intros out. unfold out. rewrite cleanup_socket_file_eq.
  destruct (unix_socket_filename st) as [path|] eqn:Hpath.
  - destruct (unlink path (world st)) as [w [errno|]] eqn:Hunlink.
    + destruct (errno =? ENOENT)%Z eqn:Herrno; cbn; rewrite ?Hpath;
        repeat (split; [reflexivity|]); [now left|].
      apply Z.eqb_neq in Herrno. right. right. exists path, errno.
      split; [reflexivity|]. split; [now rewrite Hunlink|].
      split; [assumption | reflexivity].
    + cbn. rewrite Hpath. repeat (split; [reflexivity|]). now left.
  - cbn. rewrite Hpath. repeat (split; [reflexivity|]). right. left. auto.
Qed.

(** X13. Whatever the operating system does, [close] keeps the stored
    path, leaves a stored server not serving and not listening, and logs at
    most one record, an error with the traceback; a second [close] leaves
    the server object as the first one left it. *)
Theorem close_settles_server (st : state W) :
  unix_socket_filename (fst (close st)) = unix_socket_filename st /\
  server (fst (close st)) = closed <$> server st /\
  server (fst (close (fst (close st)))) = server (fst (close st)) /\
  (exists added,
     log (fst (close st)) = log st ++ added /\
     length added <= 1 /\
     Forall (fun r => levelname r = ERROR /\ exc_info r = true) added).
Proof.
  assert (Hfirst : forall st' : state W,
    unix_socket_filename (fst (close st')) = unix_socket_filename st' /\
    server (fst (close st')) = closed <$> server st' /\
    (exists added,
       log (fst (close st')) = log st' ++ added /\
       length added <= 1 /\
       Forall (fun r => levelname r = ERROR /\ exc_info r = true) added)).
  { intros st'. rewrite close_eq.
    assert (Hquiet : exists added : list log_record,
              log st' = log st' ++ added /\ length added <= 1 /\
              Forall (fun r => levelname r = ERROR /\ exc_info r = true) added).
    { exists []. rewrite app_nil_r. repeat split; [simpl; lia | constructor]. }
    destruct (server st') as [srv|] eqn:Hsrv; cbv zeta.
    - destruct (unix_socket_filename st') as [path|] eqn:Hpath.
      + destruct (unlink path (world st')) as [w [errno|]];
          [destruct (errno =? ENOENT)%Z|]; cbn; rewrite ?Hpath;
          repeat (split; [reflexivity|]); try exact Hquiet.
        eexists. split; [reflexivity|]. split; [simpl; lia|].
        repeat constructor.
      + cbn. rewrite Hpath. repeat (split; [reflexivity|]). exact Hquiet.
    - cbn. rewrite Hsrv. repeat (split; [reflexivity|]). exact Hquiet. }
  destruct (Hfirst st) as (Hpath & Hsrv & Hlog).
  destruct (Hfirst (fst (close st))) as (_ & Hsrv2 & _).
  split; [assumption|]. split; [assumption|]. split; [|assumption].
  rewrite Hsrv2, Hsrv. now destruct (server st).
Qed.

End MoreSocket.


(** X10 where a stale socket file is replaced and the socket is then
    closed: the file is removed again. *)
Lemma construct_then_close_over_stale_file :
  let built := fst (StatusSocket.__init__ default_config stale_file) in
  snd (StatusSocket.close built) = Ok tt /\
  StatusSocket.unix_socket_filename (fst (StatusSocket.close built))
    = Some (STATUS_SOCKET_LOCATION default_config) /\
  StatusSocket.server (fst (StatusSocket.close built)) =
    Some {| StatusSocket.server_address := STATUS_SOCKET_LOCATION default_config;
            StatusSocket.listening := false;
            StatusSocket.serving := false |} /\
  StatusSocket.world (fst (StatusSocket.close built)) = stale_file_removed /\
  StatusSocket.log (fst (StatusSocket.close built)) =
    StatusSocket.log built ++
    match @None Z with
    | Some errno =>
        if (errno =? ENOENT)%Z then []
        else [{| levelname := ERROR;
                 message := "Error when removing the status socket";
                 exc_info := true |}]
    | None => []
    end.
Proof.
  apply (construct_then_close default_config stale_file None None
           stale_file_removed socket_bound stale_file_removed).
  - vm_compute. reflexivity.
  - left. reflexivity.
  - vm_compute. reflexivity.
  - vm_compute. reflexivity.
Defined.
